(** * taiga-back: the user-story services and the attribute decorator

    A shallow embedding of

    - [taiga/base/decorators.py]: [change_instance_attr] and the route
      decorators [detail_route], [list_route], [link] and [action];
    - [taiga/projects/userstories/services.py]:
      [calculate_userstory_is_closed], the filter-facet aggregation
      ([_get_userstories_statuses], [_get_userstories_assigned_to],
      [_get_userstories_owners], [_get_userstories_tags],
      [get_userstories_filters_data]), [close_userstory], [open_userstory]
      and the bulk operations [update_userstories_order_in_bulk] and
      [snapshot_userstories_in_bulk];
    - [taiga/projects/tasks/models.py]: [Task.save].

    Python objects whose attributes are read and written by name are finite
    maps from attribute names to values; the relational tables are lists of
    rows (bags, as SQL has them); every SQL statement of the source is the
    list comprehension it denotes, with its positional [%s] parameters bound
    from the argument list of [cursor.execute]; Python exceptions are the
    left summand of the result; calls into modules that are not part of
    these files (the events, the bulk update, the history snapshots) are
    recorded in the order they are made, and what they raise is a
    parameter. *)

From stdpp Require Import base option list gmap strings sorting.

Open Scope Z_scope.

(** ** Exceptions and the error monad *)

Inductive Exception : Type :=
  | AttributeError (name : string)
  | KeyError (key : string)
  | DatabaseError (msg : string)
  | ProgrammingError (msg : string).

#[global] Instance Exception_eq_dec : EqDecision Exception.
Proof. solve_decision. Defined.

(** A Python computation that either raises or returns. *)
Definition result (A : Type) : Type := Exception + A.

Definition raise {A} (e : Exception) : result A := inl e.
Definition ret {A} (a : A) : result A := inr a.
Definition bind {A B} (m : result A) (k : A → result B) : result B :=
  match m with
  | inl e => inl e
  | inr a => k a
  end.

Declare Scope py_scope.
Delimit Scope py_scope with py.
Notation "x <~ m ;; k" := (bind m (λ x, k))
  (at level 100, m at next level, right associativity) : py_scope.

(** ** taiga/base/decorators.py *)

Module decorators.

(** The values attributes hold. *)
Inductive PyValue : Type :=
  | PyNone
  | PyBool (b : bool)
  | PyInt (z : Z)
  | PyStr (s : string).

#[global] Instance PyValue_eq_dec : EqDecision PyValue.
Proof. solve_decision. Defined.

(** An instance: its own [__dict__], and the attributes it inherits from
    its class (read through the instance, never written through it). *)
Record Instance : Type := mkInstance {
  inst_dict : gmap string PyValue;
  class_dict : gmap string PyValue;
}.

(** [instance.__getattribute__(name)]: the instance's own attribute, else
    the class's, else [AttributeError]. *)
Definition __getattribute__ (instance : Instance) (name : string)
  : result PyValue :=
  match inst_dict instance !! name with
  | Some v => ret v
  | None =>
      match class_dict instance !! name with
      | Some v => ret v
      | None => raise (AttributeError name)
      end
  end.

(** [instance.__setattr__(name, value)] writes the instance's own dict. *)
Definition __setattr__ (instance : Instance) (name : string) (value : PyValue)
  : Instance :=
  mkInstance (<[name := value]> (inst_dict instance)) (class_dict instance).

(** A decorated function [fn(instance, *args, **kwargs)]: it may mutate the
    instance, and either returns or raises; the mutations it made before
    raising stay. *)
Definition Method (Args Ret : Type) : Type :=
  Instance → Args → Instance * result Ret.

(** [wrapper] of [change_instance_attr(name, new_value)(fn)].

<<
    try:
        old_value = instance.__getattribute__(name)
        changed = True
    except AttributeError:
        changed = False
    if changed:
        instance.__setattr__(name, new_value)
    ret = fn(instance, *args, **kwargs)
    if changed:
        instance.__setattr__(name, old_value)
    return ret
>>
    There is no [finally]: when [fn] raises, the exception leaves the
    wrapper before the attribute is put back. *)
Definition change_instance_attr {Args Ret} (name : string) (new_value : PyValue)
    (fn : Method Args Ret) : Method Args Ret :=
  λ instance args,
    match __getattribute__ instance name with
    | inr old_value =>
        (* changed = True *)
        let instance := __setattr__ instance name new_value in
        match fn instance args with
        | (instance, inr r) => (__setattr__ instance name old_value, inr r)
        | (instance, inl e) => (instance, inl e)
        end
    | inl (AttributeError _) =>
        (* changed = False *)
        fn instance args
    | inl e => (instance, inl e)
    end.

End decorators.

(** ** taiga/projects/userstories/services.py *)

Module services.

(** *** [calculate_userstory_is_closed] *)

(** A status object ([UserStoryStatus] or [TaskStatus]) as the function
    reads it. *)
Record StatusObj : Type := mkStatusObj {
  is_closed : bool;
}.

(** [Task.status] is a nullable foreign key (tasks/models.py). *)
Record TaskObj : Type := mkTaskObj {
  task_status : option StatusObj;
}.

(** A user story with its related objects loaded: [user_story.status]
    (nullable) and the rows of the reverse relation [user_story.tasks]. *)
Record UserStoryObj : Type := mkUserStoryObj {
  status : option StatusObj;
  tasks : list TaskObj;
}.

(** [obj.is_closed] where [obj] may be [None]. *)
Definition getattr_is_closed (obj : option StatusObj) : result bool :=
  match obj with
  | Some s => ret (is_closed s)
  | None => raise (AttributeError "is_closed")
  end.

(** A list comprehension whose body may raise: the first exception ends
    it. *)
Fixpoint comprehension {A B} (f : A → result B) (l : list A)
  : result (list B) :=
  match l with
  | [] => ret []
  | x :: l =>
      (y <~ f x ;;
       ys <~ comprehension f l ;;
       ret (y :: ys))%py
  end.

(** Python's [all]. *)
Definition all (l : list bool) : bool := forallb id l.

(** [calculate_userstory_is_closed(user_story)].
<<
    if user_story.status is None:
        return False
    if user_story.tasks.count() == 0:
        return user_story.status.is_closed
    if all([task.status.is_closed for task in user_story.tasks.all()]):
        return True
    return False
>>
    [user_story.tasks.count()] and [user_story.tasks.all()] read the same
    rows. *)
Definition calculate_userstory_is_closed (user_story : UserStoryObj)
  : result bool :=
  match status user_story with
  | None => ret false
  | Some st =>
      if bool_decide (length (tasks user_story) = 0%nat)
      then ret (is_closed st)
      else
        (closed <~ comprehension (λ task, getattr_is_closed (task_status task))
                                 (tasks user_story) ;;
         if all closed then ret true else ret false)%py
  end.

(** *** Python's [sorted(l, key=k)]

    A stable sort: [x] goes before the first element whose key is not
    smaller than its own, so elements with equal keys keep the order they
    came in ([sorted_stable] below). The result of a stable sort is unique,
    so insertion computes what CPython's merge-based [sorted] returns. *)

Section sorted.
Context {A K : Type} (key : A → K) (le : relation K) `{!RelDecision le}.

Fixpoint sorted_insert (x : A) (l : list A) : list A :=
  match l with
  | [] => [x]
  | y :: l' =>
      if decide (le (key x) (key y)) then x :: y :: l'
      else y :: sorted_insert x l'
  end.

Fixpoint sorted (l : list A) : list A :=
  match l with
  | [] => []
  | x :: l' => sorted_insert x (sorted l')
  end.

(** The order [sorted] puts the elements in: non-decreasing keys. *)
Definition by_key : relation A := λ a b, le (key a) (key b).

End sorted.

(** [l.count(e)]. *)
Definition list_count {A} `{EqDecision A} (l : list A) (e : A) : nat :=
  length (filter (λ x, x = e) l).

(** *** The relational schema

    Only the columns the statements below read. Nullable columns are
    [option]s, [None] being SQL's [NULL]. *)

(** [userstories_userstory]. [tags] is a nullable array of text. *)
Record UserStory : Type := mkUserStory {
  us_id : Z;
  us_project_id : Z;
  us_status_id : option Z;
  us_assigned_to_id : option Z;
  us_owner_id : option Z;
  us_tags : option (list string);
}.

(** [projects_project]; also the [project] object the functions receive,
    of which they read [project.id]. *)
Record Project : Type := mkProject {
  project_id : Z;
  project_name : string;
}.

(** [projects_userstorystatus]. *)
Record UserStoryStatus : Type := mkUserStoryStatus {
  status_id : Z;
  status_name : string;
  status_color : string;
  status_order : Z;
  status_project_id : Z;
}.

(** [projects_membership]; [user_id] is [NULL] for a pending invitation. *)
Record Membership : Type := mkMembership {
  membership_id : Z;
  membership_user_id : option Z;
  membership_project_id : Z;
}.

(** [users_user]. *)
Record User : Type := mkUser {
  user_id : Z;
  user_full_name : string;
  user_is_system : bool;
}.

Record Database : Type := mkDatabase {
  userstories_userstory : list UserStory;
  projects_project : list Project;
  projects_userstorystatus : list UserStoryStatus;
  projects_membership : list Membership;
  users_user : list User;
}.

#[global] Instance UserStory_eq_dec : EqDecision UserStory.
Proof. solve_decision. Defined.
#[global] Instance Project_eq_dec : EqDecision Project.
Proof. solve_decision. Defined.
#[global] Instance UserStoryStatus_eq_dec : EqDecision UserStoryStatus.
Proof. solve_decision. Defined.
#[global] Instance Membership_eq_dec : EqDecision Membership.
Proof. solve_decision. Defined.
#[global] Instance User_eq_dec : EqDecision User.
Proof. solve_decision. Defined.

(** *** SQL operators *)

(** [a = b] on nullable integers, as [WHERE] reads it: a comparison with
    [NULL] is unknown, and a row is kept only when its condition is true. *)
Definition sql_eq (a b : option Z) : bool :=
  match a, b with
  | Some x, Some y => bool_decide (x = y)
  | _, _ => false
  end.

(** [a IS NULL]. *)
Definition is_null {A} (a : option A) : bool :=
  match a with
  | None => true
  | Some _ => false
  end.

(** [l INNER JOIN r ON on]. *)
Definition inner_join {A B} (l : list A) (r : list B) (on : A → B → bool)
  : list (A * B) :=
  a ← l; (λ b, (a, b)) <$> filter (λ b, on a b) r.

(** [l RIGHT OUTER JOIN r ON on]: every row of [r], with each row of [l]
    that matches it, or once with [NULL]s for [l]'s columns when none
    does. *)
Definition right_outer_join {A B} (l : list A) (r : list B) (on : A → B → bool)
  : list (option A * B) :=
  b ← r;
  match filter (λ a, on a b) l with
  | [] => [(None, b)]
  | matches => (λ a, (Some a, b)) <$> matches
  end.

(** [q1 UNION q2] (not [UNION ALL]): duplicate rows are removed. *)
Definition sql_union {Row} `{EqDecision Row} (q1 q2 : list Row) : list Row :=
  remove_dups (q1 ++ q2).

(** [ORDER BY key]. SQL leaves the order of rows with equal keys open; the
    callers sort again in Python. *)
Definition order_by {Row} (key : Row → Z) (rows : list Row) : list Row :=
  sorted key Z.le rows.

(** The rows of
<<
    "userstories_userstory" INNER JOIN "projects_project"
        ON ("userstories_userstory"."project_id" = "projects_project"."id")
>>
    the [FROM] clause of every count subquery and of the queryset itself. *)
Definition userstory_rows (db : Database) : list (UserStory * Project) :=
  inner_join (userstories_userstory db) (projects_project db)
    (λ us p, bool_decide (us_project_id us = project_id p)).

(** [SELECT ... FROM <userstory_rows> WHERE cond]. *)
Definition select_where (db : Database) (cond : UserStory → Project → bool)
  : list (UserStory * Project) :=
  filter (λ r, cond r.1 r.2) (userstory_rows db).

(** [(SELECT count( * ) FROM <userstory_rows> WHERE cond)]. *)
Definition select_count (db : Database) (cond : UserStory → Project → bool)
  : nat :=
  length (select_where db cond).

(** *** Statements with positional parameters *)

Inductive SqlValue : Type :=
  | SqlNull
  | SqlBool (b : bool)
  | SqlInt (z : Z)
  | SqlText (s : string).

#[global] Instance SqlValue_eq_dec : EqDecision SqlValue.
Proof. solve_decision. Defined.

(** A compiled [WHERE] fragment, the source's [where]
    ([queryset.query.where.as_sql(...)[0]]): SQL text over the columns of
    [userstory_rows] with [placeholders] many [%s], read here as the
    condition it denotes once they are bound. *)
Record WhereSql : Type := mkWhereSql {
  placeholders : nat;
  holds : list SqlValue → UserStory → Project → bool;
}.

(** A statement: the rows it returns for the parameters given, or [None]
    when the parameters do not fit its placeholders. *)
Definition Statement (Row : Type) : Type :=
  Database → list SqlValue → option (list Row).

(** The parameters are consumed left to right, in the order the
    placeholders stand in the statement's text: [bind_where] takes those of
    an occurrence of [{where}], [bind_int] the one of an integer [%s]; at
    the end of the text no parameter may be left over
    ([guard (params = [])]). *)
Definition bind_where (where_ : WhereSql) (params : list SqlValue)
  : option ((UserStory → Project → bool) * list SqlValue) :=
  if decide (placeholders where_ ≤ length params)%nat
  then Some (holds where_ (take (placeholders where_) params),
             drop (placeholders where_) params)
  else None.

Definition bind_int (params : list SqlValue) : option (Z * list SqlValue) :=
  match params with
  | SqlInt z :: params => Some (z, params)
  | _ => None
  end.

(** *** The connection *)

(** The four statements [get_userstories_filters_data] runs. *)
Inductive Query : Type :=
  | QStatuses
  | QAssignedTo
  | QOwners
  | QTags.

#[global] Instance Query_eq_dec : EqDecision Query.
Proof. solve_decision. Defined.

(** [django.db.connection]: the data it reads, and which of the statements
    the data source refuses (connectivity, a malformed predicate, ...) with
    which exception. *)
Record Connection : Type := mkConnection {
  database : Database;
  failure : Query → option Exception;
}.

(** [cursor.execute(sql, params); rows = cursor.fetchall()] inside
    [with closing(connection.cursor())]: an exception leaves the block.
    Parameters that do not fit the placeholders make the driver raise. *)
Definition cursor_execute {Row} (connection : Connection) (q : Query)
    (sql : Statement Row) (params : list SqlValue) : result (list Row) :=
  match failure connection q with
  | Some e => raise e
  | None =>
      match sql (database connection) params with
      | Some rows => ret rows
      | None => raise (ProgrammingError "parameters")
      end
  end.

(** *** Querysets *)

(** A queryset over [UserStory], as far as the functions look into it: its
    compiled [WHERE] clause and the parameters that go with it. *)
Record Queryset : Type := mkQueryset {
  query_where : WhereSql;
  query_params : list SqlValue;
}.

(** [queryset.query.where.as_sql(compiler, connection)]. *)
Definition as_sql (queryset : Queryset) : WhereSql * list SqlValue :=
  (query_where queryset, query_params queryset).

(** The queryset's own statement,
    [SELECT ... FROM <userstory_rows> WHERE {where}]. *)
Definition queryset_sql (where_ : WhereSql)
    (db : Database) (params : list SqlValue) : option (list UserStory) :=
  '(where1, params) ← bind_where where_ params;
  guard (params = []);;
  Some (fst <$> select_where db where1).

(** [queryset.values_list("tags", flat=True)], iterated. *)
Definition values_list_tags (connection : Connection) (queryset : Queryset)
  : result (list (option (list string))) :=
  (rows <~ cursor_execute connection QTags
             (queryset_sql (as_sql queryset).1) (as_sql queryset).2 ;;
   ret (us_tags <$> rows))%py.

(** *** The facet records

    The dicts the functions build, one record type per set of keys. *)

(** [{"id", "name", "color", "order", "count"}]. *)
Record StatusFacet : Type := mkStatusFacet {
  st_id : Z;
  st_name : string;
  st_color : string;
  st_order : Z;
  st_count : nat;
}.

(** [{"id", "full_name", "count"}], of the assignees and of the owners. *)
Record PersonFacet : Type := mkPersonFacet {
  p_id : option Z;
  p_full_name : string;
  p_count : nat;
}.

(** [{"name", "count"}]. *)
Record TagFacet : Type := mkTagFacet {
  tag_name : string;
  tag_count : nat;
}.

#[global] Instance StatusFacet_eq_dec : EqDecision StatusFacet.
Proof. solve_decision. Defined.
#[global] Instance PersonFacet_eq_dec : EqDecision PersonFacet.
Proof. solve_decision. Defined.
#[global] Instance TagFacet_eq_dec : EqDecision TagFacet.
Proof. solve_decision. Defined.

(** The values of the mapping [get_userstories_filters_data] returns. *)
Inductive Facets : Type :=
  | StatusFacets (l : list StatusFacet)
  | PersonFacets (l : list PersonFacet)
  | TagFacets (l : list TagFacet).

#[global] Instance Facets_eq_dec : EqDecision Facets.
Proof. solve_decision. Defined.

(** [full_name or ""]. *)
Definition or_empty (s : option string) : string :=
  match s with
  | Some (String a s') => String a s'
  | _ => ""
  end.

(** [querysets[key]]. *)
Definition getitem {V} (d : gmap string V) (key : string) : result V :=
  match d !! key with
  | Some v => ret v
  | None => raise (KeyError key)
  end.

(** *** The statements of the four facet functions *)

(** The statement of [_get_userstories_statuses], its parameters bound:
    [where1] is [{where}], [project_id] the last [%s].
<<
      SELECT "projects_userstorystatus"."id",
             "projects_userstorystatus"."name",
             "projects_userstorystatus"."color",
             "projects_userstorystatus"."order",
             (SELECT count( * )
                FROM "userstories_userstory"
                     INNER JOIN "projects_project" ON
                                ("userstories_userstory"."project_id" = "projects_project"."id")
               WHERE {where} AND "userstories_userstory"."status_id" = "projects_userstorystatus"."id")
        FROM "projects_userstorystatus"
       WHERE "projects_userstorystatus"."project_id" = %s
    ORDER BY "projects_userstorystatus"."order";
>> *)
Definition statuses_rows (db : Database)
    (where1 : UserStory → Project → bool) (project_id : Z)
  : list (Z * string * string * Z * nat) :=
  (λ s, (status_id s, status_name s, status_color s, status_order s,
         select_count db (λ us p,
           where1 us p && sql_eq (us_status_id us) (Some (status_id s)))))
  <$> order_by status_order
        (filter (λ s, status_project_id s = project_id)
                (projects_userstorystatus db)).

(** The statement as [cursor.execute] receives it: [{where}]'s placeholders
    come first in the text, the project's [%s] last. *)
Definition statuses_sql (where_ : WhereSql)
    (db : Database) (params : list SqlValue)
  : option (list (Z * string * string * Z * nat)) :=
  '(where1, params) ← bind_where where_ params;
  '(project_id, params) ← bind_int params;
  guard (params = []);;
  Some (statuses_rows db where1 project_id).

(** The statement of [_get_userstories_assigned_to], its parameters bound:
    [where1] and [where2] are the two occurrences of [{where}].
<<
          SELECT NULL,
                 NULL,
                 (SELECT count( * )
                    FROM "userstories_userstory"
                         INNER JOIN "projects_project" ON
                                    ("userstories_userstory"."project_id" = "projects_project"."id" )
                   WHERE {where} AND "userstories_userstory"."assigned_to_id" IS NULL)
    UNION SELECT "users_user"."id",
                 "users_user"."full_name",
                 (SELECT count( * )
                    FROM "userstories_userstory"
                         INNER JOIN "projects_project" ON
                                    ("userstories_userstory"."project_id" = "projects_project"."id" )
                   WHERE {where} AND "userstories_userstory"."assigned_to_id" = "projects_membership"."user_id")
            FROM "projects_membership"
                 INNER JOIN "users_user" ON
                            ("projects_membership"."user_id" = "users_user"."id")
           WHERE "projects_membership"."project_id" = %s AND "projects_membership"."user_id" IS NOT NULL;
>> *)
Definition assigned_to_rows (db : Database)
    (where1 where2 : UserStory → Project → bool) (project_id : Z)
  : list (option Z * option string * nat) :=
  sql_union
    [(None, None,
      select_count db (λ us p, where1 us p && is_null (us_assigned_to_id us)))]
    ((λ r, (Some (user_id r.2), Some (user_full_name r.2),
            select_count db (λ us p,
              where2 us p
              && sql_eq (us_assigned_to_id us) (membership_user_id r.1))))
     <$> filter (λ r, bool_decide (membership_project_id r.1 = project_id)
                      && negb (is_null (membership_user_id r.1)))
           (inner_join (projects_membership db) (users_user db)
              (λ m u, sql_eq (membership_user_id m) (Some (user_id u))))).

Definition assigned_to_sql (where_ : WhereSql)
    (db : Database) (params : list SqlValue)
  : option (list (option Z * option string * nat)) :=
  '(where1, params) ← bind_where where_ params;
  '(where2, params) ← bind_where where_ params;
  '(project_id, params) ← bind_int params;
  guard (params = []);;
  Some (assigned_to_rows db where1 where2 project_id).

(** The statement of [_get_userstories_owners], its parameters bound.
<<
       SELECT "users_user"."id",
              "users_user"."full_name",
              (SELECT count( * )
                 FROM "userstories_userstory"
                      INNER JOIN "projects_project" ON
                                 ("userstories_userstory"."project_id" = "projects_project"."id")
                WHERE {where} AND "userstories_userstory"."owner_id" = "projects_membership"."user_id")
        FROM "projects_membership"
             RIGHT OUTER JOIN "users_user" ON
                              ("projects_membership"."user_id" = "users_user"."id")
       WHERE (("projects_membership"."project_id" = %s AND "projects_membership"."user_id" IS NOT NULL)
              OR ("users_user"."is_system" IS TRUE));
>>
    On a row of the outer join that has no membership, every
    ["projects_membership"] column is [NULL]. *)
Definition owners_rows (db : Database)
    (where1 : UserStory → Project → bool) (project_id : Z)
  : list (Z * string * nat) :=
  (λ r, (user_id r.2, user_full_name r.2,
         select_count db (λ us p,
           where1 us p
           && sql_eq (us_owner_id us) (r.1 ≫= membership_user_id))))
  <$> filter (λ r, sql_eq (membership_project_id <$> r.1) (Some project_id)
                   && negb (is_null (r.1 ≫= membership_user_id))
                   || user_is_system r.2)
        (right_outer_join (projects_membership db) (users_user db)
           (λ m u, sql_eq (membership_user_id m) (Some (user_id u)))).

Definition owners_sql (where_ : WhereSql)
    (db : Database) (params : list SqlValue)
  : option (list (Z * string * nat)) :=
  '(where1, params) ← bind_where where_ params;
  '(project_id, params) ← bind_int params;
  guard (params = []);;
  Some (owners_rows db where1 project_id).

(** *** The four facet functions and their composition *)

Section facets.

(** [django.utils.translation.ugettext], for the active language. *)
Context (ugettext : string → string).

(** The body of [for id, name, color, order, count in rows:]. *)
Definition status_dict (row : Z * string * string * Z * nat) : StatusFacet :=
  match row with
  | (id, name, color, order, count) =>
      mkStatusFacet id (ugettext name) color order count
  end.

Definition _get_userstories_statuses (connection : Connection)
    (project : Project) (queryset : Queryset) : result (list StatusFacet) :=
  let queryset_where_tuple := as_sql queryset in
  let where_ := queryset_where_tuple.1 in
  let where_params := queryset_where_tuple.2 in
  (rows <~ cursor_execute connection QStatuses (statuses_sql where_)
             (where_params ++ [SqlInt (project_id project)]) ;;
   let result := status_dict <$> rows in
   ret (sorted st_order Z.le result))%py.

(** The body of [for id, full_name, count in rows:] of the assignees. *)
Definition assigned_to_dict (row : option Z * option string * nat)
  : PersonFacet :=
  match row with
  | (id, full_name, count) => mkPersonFacet id (or_empty full_name) count
  end.

Definition _get_userstories_assigned_to (connection : Connection)
    (project : Project) (queryset : Queryset) : result (list PersonFacet) :=
  let queryset_where_tuple := as_sql queryset in
  let where_ := queryset_where_tuple.1 in
  let where_params := queryset_where_tuple.2 in
  (rows <~ cursor_execute connection QAssignedTo (assigned_to_sql where_)
             (where_params ++ where_params ++ [SqlInt (project_id project)]) ;;
   let result := assigned_to_dict <$> rows in
   ret (sorted p_full_name String.le result))%py.

(** The body of [for id, full_name, count in rows:] of the owners: a dict
    is appended only [if count > 0]. *)
Definition owner_dict (row : Z * string * nat) : option PersonFacet :=
  match row with
  | (id, full_name, count) =>
      if bool_decide (0 < count)%nat
      then Some (mkPersonFacet (Some id) full_name count)
      else None
  end.

Definition _get_userstories_owners (connection : Connection)
    (project : Project) (queryset : Queryset) : result (list PersonFacet) :=
  let queryset_where_tuple := as_sql queryset in
  let where_ := queryset_where_tuple.1 in
  let where_params := queryset_where_tuple.2 in
  (rows <~ cursor_execute connection QOwners (owners_sql where_)
             (where_params ++ [SqlInt (project_id project)]) ;;
   let result := omap owner_dict rows in
   ret (sorted p_full_name String.le result))%py.

(** The body of [for t_list in ...:]: [None] is skipped, a list is
    appended ([tags += list(t_list)]). *)
Definition extend_tags (tags : list string) (t_list : option (list string))
  : list string :=
  match t_list with
  | None => tags
  | Some t_list => tags ++ t_list
  end.

Definition _get_userstories_tags (connection : Connection)
    (queryset : Queryset) : result (list TagFacet) :=
  (t_lists <~ values_list_tags connection queryset ;;
   let tags := foldl extend_tags [] t_lists in
   let tags' :=
     (λ e, mkTagFacet e (list_count tags e))
     <$> elements (list_to_set tags : gset string) in
   ret (sorted tag_name String.le tags'))%py.

(** [get_userstories_filters_data(project, querysets)]: the [OrderedDict]
    is the list of its items, in insertion order. *)
Definition get_userstories_filters_data (connection : Connection)
    (project : Project) (querysets : gmap string Queryset)
  : result (list (string * Facets)) :=
  (qs <~ getitem querysets "statuses" ;;
   statuses <~ _get_userstories_statuses connection project qs ;;
   qs <~ getitem querysets "assigned_to" ;;
   assigned_to <~ _get_userstories_assigned_to connection project qs ;;
   qs <~ getitem querysets "owners" ;;
   owners <~ _get_userstories_owners connection project qs ;;
   qs <~ getitem querysets "tags" ;;
   tags <~ _get_userstories_tags connection qs ;;
   ret [("statuses", StatusFacets statuses);
        ("assigned_to", PersonFacets assigned_to);
        ("owners", PersonFacets owners);
        ("tags", TagFacets tags)])%py.

End facets.

(** *** Vocabulary of the properties *)

(** The filtered collection a queryset stands for: the user stories its own
    statement yields. *)
Definition filtered_collection (db : Database) (queryset : Queryset)
  : list UserStory :=
  fst <$> select_where db (holds (query_where queryset) (query_params queryset)).

(** [as_sql] hands out as many parameters as the fragment has
    placeholders. *)
Definition well_formed (queryset : Queryset) : Prop :=
  length (query_params queryset) = placeholders (query_where queryset).

(** The statuses belonging to a project. *)
Definition project_statuses (db : Database) (project : Project)
  : list UserStoryStatus :=
  filter (λ s, status_project_id s = project_id project)
         (projects_userstorystatus db).

(** A user is a member of the project when a membership row links the
    two. *)
Definition is_member (db : Database) (project : Project) (u : User) : Prop :=
  Exists (λ m, membership_project_id m = project_id project
               ∧ membership_user_id m = Some (user_id u))
         (projects_membership db).

Definition project_members (db : Database) (project : Project) : list User :=
  filter (is_member db project) (users_user db).

(** The number of items of a collection that satisfy [P]. *)
Definition number_of {A} (P : A → Prop) `{∀ x, Decision (P x)} (l : list A)
  : nat :=
  length (filter P l).

(** The record the statuses facet holds for a status: its columns, its name
    translated, and the number of items in that status. *)
Definition status_record (ugettext : string → string)
    (items : list UserStory) (s : UserStoryStatus) : StatusFacet :=
  mkStatusFacet (status_id s) (ugettext (status_name s)) (status_color s)
    (status_order s)
    (number_of (λ us, us_status_id us = Some (status_id s)) items).

(** The "unassigned" record: id null, label empty, the number of items
    without assignee. *)
Definition unassigned_record (items : list UserStory) : PersonFacet :=
  mkPersonFacet None ""
    (number_of (λ us, us_assigned_to_id us = None) items).

(** The record of a person as assignee: id, full name, the number of items
    assigned to them. *)
Definition assignee_record (items : list UserStory) (u : User) : PersonFacet :=
  mkPersonFacet (Some (user_id u)) (user_full_name u)
    (number_of (λ us, us_assigned_to_id us = Some (user_id u)) items).

(** The record of a person as owner: id, full name, the number of items
    they own. *)
Definition owner_record (items : list UserStory) (u : User) : PersonFacet :=
  mkPersonFacet (Some (user_id u)) (user_full_name u)
    (number_of (λ us, us_owner_id us = Some (user_id u)) items).

(** The tag list of an item, [NULL] read as no tag. *)
Definition tags_of (us : UserStory) : list string := default [] (us_tags us).

(** All tags of a collection, item after item. *)
Definition flattened_tags (items : list UserStory) : list string :=
  items ≫= tags_of.

(** The database without the user stories of other projects. *)
Definition only_project (project : Project) (db : Database) : Database :=
  mkDatabase
    (filter (λ us, us_project_id us = project_id project)
            (userstories_userstory db))
    (projects_project db) (projects_userstorystatus db)
    (projects_membership db) (users_user db).

Definition connection_only_project (project : Project) (c : Connection)
  : Connection :=
  mkConnection (only_project project (database c)) (failure c).

(** A queryset scoped to the project: its predicate holds of no user story
    of another project. *)
Definition scoped_to (project : Project) (queryset : Queryset) : Prop :=
  ∀ us p, holds (query_where queryset) (query_params queryset) us p = true →
          us_project_id us = project_id project.

(** What running a statement for a queryset comes to: the data source's
    refusal, else a parameter mismatch, else the value computed from the
    rows. *)
Definition outcome {A} (c : Connection) (q : Query) (queryset : Queryset)
    (a : A) : result A :=
  match failure c q with
  | Some e => inl e
  | None =>
      if decide (well_formed queryset) then inr a
      else inl (ProgrammingError "parameters")
  end.

(** The keys of an [OrderedDict], in order. *)
Definition keys {V} (d : list (string * V)) : list string := fst <$> d.

(** *** Sample data *)

(** [WHERE "userstories_userstory"."project_id" = %s]. *)
Definition where_project : WhereSql :=
  mkWhereSql 1 (λ params us p,
    match params with
    | [SqlInt project_id] => bool_decide (us_project_id us = project_id)
    | _ => false
    end).

(** A predicate broader than any project: it holds of every row. *)
Definition where_any : WhereSql := mkWhereSql 0 (λ _ _ _, true).

Definition in_project (project_id : Z) : Queryset :=
  mkQueryset where_project [SqlInt project_id].

Definition everything : Queryset := mkQueryset where_any [].

(** The same queryset for each of the four dimensions. *)
Definition four (queryset : Queryset) : gmap string Queryset :=
  <["statuses" := queryset]>
    (<["assigned_to" := queryset]>
       (<["owners" := queryset]> (<["tags" := queryset]> ∅))).

Definition healthy (db : Database) : Connection := mkConnection db (λ _, None).

(** A project with statuses New and Done, members Alice and Bob and three
    stories, next to a second project with two stories of its own, one of
    them assigned to Alice and owned by Bob. *)
Definition project_P : Project := mkProject 1 "P".

Definition sample_db : Database := {|
  userstories_userstory := [
    mkUserStory 1 1 (Some 10) None (Some 100) (Some ["bug"; "ui"]);
    mkUserStory 2 1 (Some 10) (Some 100) (Some 100) (Some ["bug"]);
    mkUserStory 3 1 (Some 11) (Some 100) (Some 101) (Some []);
    mkUserStory 4 2 (Some 20) None (Some 102) None;
    mkUserStory 5 2 (Some 20) (Some 100) (Some 101) (Some ["ops"]) ];
  projects_project := [project_P; mkProject 2 "Q"];
  projects_userstorystatus := [
    mkUserStoryStatus 11 "Done" "#0f0" 2 1;
    mkUserStoryStatus 10 "New" "#999" 1 1;
    mkUserStoryStatus 20 "New" "#999" 1 2 ];
  projects_membership := [
    mkMembership 1 (Some 101) 1; mkMembership 2 (Some 100) 1;
    mkMembership 3 None 1; mkMembership 4 (Some 102) 2 ];
  users_user := [
    mkUser 100 "Alice" false; mkUser 101 "Bob" false;
    mkUser 102 "Carol" false ];
|}.

(** One story that carries the same tag twice. *)
Definition repeated_tag_db : Database := {|
  userstories_userstory := [
    mkUserStory 1 1 (Some 10) None (Some 100) (Some ["bug"; "bug"]) ];
  projects_project := [project_P];
  projects_userstorystatus := [];
  projects_membership := [];
  users_user := [];
|}.

(** The system account the GitHub hook's migration creates (no membership
    of any project), owning the one story of the project. *)
Definition github_db : Database := {|
  userstories_userstory := [
    mkUserStory 1 1 (Some 10) None (Some 7) None ];
  projects_project := [project_P];
  projects_userstorystatus := [mkUserStoryStatus 10 "New" "#999" 1 1];
  projects_membership := [];
  users_user := [mkUser 7 "Github" true];
|}.

(** A project with one status, one member and no user story. *)
Definition no_story_db : Database := {|
  userstories_userstory := [];
  projects_project := [project_P];
  projects_userstorystatus := [mkUserStoryStatus 10 "New" "#999" 1 1];
  projects_membership := [mkMembership 1 (Some 100) 1];
  users_user := [mkUser 100 "Alice" false];
|}.

(** The connection drops while the owners statement runs. *)
Definition owners_down (db : Database) : Connection :=
  mkConnection db (λ q, match q with
                        | QOwners => Some (DatabaseError "connection lost")
                        | _ => None
                        end).

End services.

Module decorators_samples.
Import decorators.

(** An instance without any attribute. *)
Definition bare : Instance := mkInstance ∅ ∅.

(** An instance whose attribute [_importing] is set. *)
Definition importing : Instance :=
  mkInstance {["_importing" := PyBool false]} ∅.

(** A method that sets [_importing] itself and returns. *)
Definition sets_importing : Method unit Z :=
  λ instance _, (__setattr__ instance "_importing" (PyInt 1), ret 0).

(** A method that reports what it sees under [_importing]. *)
Definition reads_importing : Method unit PyValue :=
  λ instance _,
    (instance, ret (default PyNone (inst_dict instance !! "_importing"))).

End decorators_samples.

(** ** taiga/projects/userstories/services.py: closing and reopening *)

Module lifecycle.
Import decorators.

(** The fields of a user story: the two the functions write, and the
    others, by name. *)
Record Fields : Type := mkFields {
  story_is_closed : bool;
  story_finish_date : option Z;
  story_other : gmap string PyValue;
}.

(** The Python object [us], the row of [userstories_userstory] it was loaded
    from, and the [update_fields] of the [us.save] calls made so far. *)
Record Session : Type := mkSession {
  instance : Fields;
  row : Fields;
  saves : list (list string);
}.

(** Django's [Model.save(update_fields=...)], in which a model's [save]
    ends: the columns named are written from the object, the others keep
    what the row holds; the object is not written. *)
Definition model_save (update_fields : list string) (s : Session) : Session :=
  let obj := instance s in
  let old := row s in
  mkSession obj
    (mkFields
       (if decide ("is_closed" ∈ update_fields)
        then story_is_closed obj else story_is_closed old)
       (if decide ("finish_date" ∈ update_fields)
        then story_finish_date obj else story_finish_date old)
       (filter (λ kv, kv.1 ∈ update_fields) (story_other obj)
        ∪ filter (λ kv, kv.1 ∉ update_fields) (story_other old)))
    (update_fields :: saves s).

Section user_story.

(** [UserStory.save] is not among the files of this development
    (userstories/models.py). It is taken as a parameter: [pre_save] is what
    the model's [save] assigns on [self] before it calls
    [super().save( *args, **kwargs)], as [Task.save] of tasks/models.py does
    with [modified_date] and [status]. *)
Context (pre_save : Fields → Fields).

(** [us.save(update_fields=...)]. *)
Definition save (update_fields : list string) (s : Session) : Session :=
  model_save update_fields (mkSession (pre_save (instance s)) (row s) (saves s)).

(** [close_userstory(us)], [now] being what [timezone.now()] returns.
<<
    if not us.is_closed:
        us.is_closed = True
        us.finish_date = timezone.now()
        us.save(update_fields=["is_closed", "finish_date"])
>> *)
Definition close_userstory (now : Z) (s : Session) : Session :=
  if negb (story_is_closed (instance s))
  then
    let us := mkFields true (Some now) (story_other (instance s)) in
    save ["is_closed"; "finish_date"] (mkSession us (row s) (saves s))
  else s.

(** [open_userstory(us)].
<<
    if us.is_closed:
        us.is_closed = False
        us.finish_date = None
        us.save(update_fields=["is_closed", "finish_date"])
>> *)
Definition open_userstory (s : Session) : Session :=
  if story_is_closed (instance s)
  then
    let us := mkFields false None (story_other (instance s)) in
    save ["is_closed"; "finish_date"] (mkSession us (row s) (saves s))
  else s.

End user_story.

(** A story is closed exactly when it has a finish date. *)
Definition dated (f : Fields) : Prop :=
  story_is_closed f = true ↔ is_Some (story_finish_date f).

(** The other fields are those of the model, not the two written here. *)
Definition other_fields (f : Fields) : Prop :=
  story_other f !! "is_closed" = None
  ∧ story_other f !! "finish_date" = None.

(** A model's [save] that does not assign [is_closed] or [finish_date]
    itself. *)
Definition keeps_closing_fields (pre_save : Fields → Fields) : Prop :=
  ∀ f, story_is_closed (pre_save f) = story_is_closed f
       ∧ story_finish_date (pre_save f) = story_finish_date f.

(** A model's [save] under which the other fields stay the other fields. *)
Definition keeps_other_fields (pre_save : Fields → Fields) : Prop :=
  ∀ f, other_fields f → other_fields (pre_save f).

(** A model's [save] that sets [modified_date], as [Task.save] does. *)
Definition sets_modified_date (now : Z) (f : Fields) : Fields :=
  mkFields (story_is_closed f) (story_finish_date f)
    (<["modified_date" := PyInt now]> (story_other f)).

(** An open story, edited in memory and not saved. *)
Definition edited_open : Session :=
  mkSession (mkFields false None {["subject" := PyStr "new"]})
            (mkFields false None {["subject" := PyStr "old"]}) [].

End lifecycle.

(** ** Python truthiness *)

Module builtins.
Import decorators.

(** [bool(v)]: [None], [False], [0] and the empty string are false. *)
Definition truthy (v : PyValue) : bool :=
  match v with
  | PyNone => false
  | PyBool b => b
  | PyInt z => negb (bool_decide (z = 0))
  | PyStr s => negb (bool_decide (s = ""))
  end.

End builtins.

(** ** taiga/projects/tasks/models.py: [Task.save] *)

Module tasks_models.
Import decorators builtins services.

(** A task as [save] reads and writes it. [_importing] is a class attribute
    ([None]) unless set on the instance; [modified_date] is a datetime, here
    its timestamp, or [None]; [status] is the nullable foreign key;
    [default_task_status] is [self.project.default_task_status]. *)
Record Task : Type := mkTask {
  _importing : PyValue;
  modified_date : option Z;
  t_status : option StatusObj;
  default_task_status : option StatusObj;
}.

(** [Task.save], [now] being what [timezone.now()] returns; the result is
    the task as [super().save] receives it.
<<
    if not self._importing or not self.modified_date:
        self.modified_date = timezone.now()
    if not self.status:
        self.status = self.project.default_task_status
    return super().save( *args, **kwargs)
>> *)
Definition save (now : Z) (self : Task) : Task :=
  let self :=
    if negb (truthy (_importing self))
       || negb (bool_decide (is_Some (modified_date self)))
    then mkTask (_importing self) (Some now) (t_status self)
                (default_task_status self)
    else self in
  let self :=
    if negb (bool_decide (is_Some (t_status self)))
    then mkTask (_importing self) (modified_date self)
                (default_task_status self) (default_task_status self)
    else self in
  self.

(** The task as [calculate_userstory_is_closed] meets it in
    [user_story.tasks]. *)
Definition as_related (t : Task) : TaskObj := mkTaskObj (t_status t).

End tasks_models.

(** ** taiga/projects/userstories/services.py: the bulk operations *)

Module bulk.
Import services.

(** The calls the functions make into other modules. *)
Inductive Call : Type :=
  | emit_event_for_ids (ids : list Z) (content_type : string) (projectid : Z)
  | update_in_bulk_with_ids (ids : list Z) (values : list (gmap string Z))
      (model : string)
  | take_snapshot (us : UserStory) (user : Z).

#[global] Instance Call_eq_dec : EqDecision Call.
Proof. solve_decision. Defined.

(** What the ORM raises besides Python's own exceptions:
    [<model>.DoesNotExist] and [<model>.MultipleObjectsReturned]. *)
Inductive OrmException : Type :=
  | Python (e : Exception)
  | DoesNotExist (model : string)
  | MultipleObjectsReturned (model : string).

#[global] Instance OrmException_eq_dec : EqDecision OrmException.
Proof. solve_decision. Defined.

(** The other modules: which call raises what, if anything. *)
Definition Collaborators : Type := Call → option OrmException.

(** The loop of [update_userstories_order_in_bulk]:
<<
    for us_data in bulk_data:
        user_story_ids.append(us_data["us_id"])
        new_order_values.append({field: us_data["order"]})
>> *)
Fixpoint order_loop (field : string) (bulk_data : list (gmap string Z))
    (user_story_ids : list Z) (new_order_values : list (gmap string Z))
  : result (list Z * list (gmap string Z)) :=
  match bulk_data with
  | [] => ret (user_story_ids, new_order_values)
  | us_data :: bulk_data =>
      (us_id <~ getitem us_data "us_id" ;;
       let user_story_ids := user_story_ids ++ [us_id] in
       order <~ getitem us_data "order" ;;
       let new_order_values := new_order_values ++ [{[field := order]}] in
       order_loop field bulk_data user_story_ids new_order_values)%py
  end.

(** [update_userstories_order_in_bulk(bulk_data, field, project)]: the calls
    made, in order, and how the function ends.
<<
    user_story_ids = []
    new_order_values = []
    for us_data in bulk_data: ...
    events.emit_event_for_ids(ids=user_story_ids,
                              content_type="userstories.userstory",
                              projectid=project.pk)
    db.update_in_bulk_with_ids(user_story_ids, new_order_values,
                               model=models.UserStory)
>> *)
Definition update_userstories_order_in_bulk (others : Collaborators)
    (bulk_data : list (gmap string Z)) (field : string) (project : Project)
  : list Call * (OrmException + unit) :=
  match order_loop field bulk_data [] [] with
  | inl e => ([], inl (Python e))
  | inr (user_story_ids, new_order_values) =>
      let emit :=
        emit_event_for_ids user_story_ids "userstories.userstory"
          (project_id project) in
      match others emit with
      | Some e => ([emit], inl e)
      | None =>
          let update :=
            update_in_bulk_with_ids user_story_ids new_order_values
              "UserStory" in
          match others update with
          | Some e => ([emit; update], inl e)
          | None => ([emit; update], inr ())
          end
      end
  end.

(** [models.UserStory.objects.get(pk=pk)]. *)
Definition objects_get (db : Database) (pk : Z) : OrmException + UserStory :=
  match filter (λ us, us_id us = pk) (userstories_userstory db) with
  | [] => inl (DoesNotExist "UserStory")
  | [us] => inr us
  | _ => inl (MultipleObjectsReturned "UserStory")
  end.

(** [except models.UserStory.DoesNotExist]. *)
Definition caught (e : OrmException) : bool :=
  bool_decide (e = DoesNotExist "UserStory").

(** [snapshot_userstories_in_bulk(bulk_data, user)]: the calls made, in
    order, after those in [calls], and how the function ends.
<<
    for us_data in bulk_data:
        try:
            us = models.UserStory.objects.get(pk=us_data['us_id'])
            take_snapshot(us, user=user)
        except models.UserStory.DoesNotExist:
            pass
>>
    The [try] covers the lookup of the key, the query and [take_snapshot];
    the [except] catches [UserStory.DoesNotExist] and nothing else. *)
Fixpoint snapshot_loop (others : Collaborators) (db : Database) (user : Z)
    (bulk_data : list (gmap string Z)) (calls : list Call)
  : list Call * (OrmException + unit) :=
  match bulk_data with
  | [] => (calls, inr ())
  | us_data :: bulk_data =>
      match getitem us_data "us_id" with
      | inl e => (calls, inl (Python e))
      | inr pk =>
          match objects_get db pk with
          | inl e =>
              if caught e then snapshot_loop others db user bulk_data calls
              else (calls, inl e)
          | inr us =>
              let calls := calls ++ [take_snapshot us user] in
              match others (take_snapshot us user) with
              | None => snapshot_loop others db user bulk_data calls
              | Some e =>
                  if caught e
                  then snapshot_loop others db user bulk_data calls
                  else (calls, inl e)
              end
          end
      end
  end.

Definition snapshot_userstories_in_bulk (others : Collaborators)
    (db : Database) (bulk_data : list (gmap string Z)) (user : Z)
  : list Call * (OrmException + unit) :=
  snapshot_loop others db user bulk_data [].

(** The stories the entries name, entry after entry. *)
Definition existing (db : Database) (bulk_data : list (gmap string Z))
  : list UserStory :=
  us_data ← bulk_data;
  filter (λ us, Some (us_id us) = us_data !! "us_id")
         (userstories_userstory db).

(** Collaborators that raise nothing. *)
Definition obliging : Collaborators := λ _, None.

(** The entry [{"us_id": us_id, "order": order}]. *)
Definition entry (us_id order : Z) : gmap string Z :=
  {["us_id" := us_id; "order" := order]}.

End bulk.

(** ** taiga/base/decorators.py: the route decorators *)

Module routes.
Import decorators.

(** What the decorators store on a function. *)
Inductive Attr : Type :=
  | Methods (methods : list string)
  | Flag (b : bool)
  | Kwargs (kwargs : gmap string PyValue)
  | Value (v : PyValue).

#[global] Instance Attr_eq_dec : EqDecision Attr.
Proof. solve_decision. Defined.

(** A function object: which function it is, and its [__dict__]. *)
Record Func : Type := mkFunc {
  func_name : string;
  func_dict : gmap string Attr;
}.

(** [func.name = value]. *)
Definition set_attr (func : Func) (name : string) (value : Attr) : Func :=
  mkFunc (func_name func) (<[name := value]> (func_dict func)).

(** The body shared, letter for letter, by the four decorators:
<<
    def decorator(func):
        func.bind_to_methods = ...
        func.detail = ...
        func.kwargs = kwargs
        return func
>> *)
Definition decorator (bind_to_methods : list string) (detail : bool)
    (kwargs : gmap string PyValue) (func : Func) : Func :=
  let func := set_attr func "bind_to_methods" (Methods bind_to_methods) in
  let func := set_attr func "detail" (Flag detail) in
  let func := set_attr func "kwargs" (Kwargs kwargs) in
  func.

(** [detail_route(methods=['get'], **kwargs)]; [None] is the argument left
    out. *)
Definition detail_route (methods : option (list string))
    (kwargs : gmap string PyValue) : Func → Func :=
  decorator (default ["get"] methods) true kwargs.

(** [list_route(methods=['get'], **kwargs)]. *)
Definition list_route (methods : option (list string))
    (kwargs : gmap string PyValue) : Func → Func :=
  decorator (default ["get"] methods) false kwargs.

(** A warning issued through [warnings.warn(msg, category, stacklevel=2)]. *)
Record Warning : Type := mkWarning {
  message : string;
  category : string;
}.

(** [link( **kwargs)]: the warnings issued so far, and the decorator. The
    warning is issued when [link(...)] is evaluated, before anything is
    decorated. *)
Definition link (kwargs : gmap string PyValue) (warnings : list Warning)
  : list Warning * (Func → Func) :=
  let msg := "link is pending deprecation. Use detail_route instead." in
  (warnings ++ [mkWarning msg "PendingDeprecationWarning"],
   decorator ["get"] true kwargs).

(** [action(methods=['post'], **kwargs)]. *)
Definition action (methods : option (list string))
    (kwargs : gmap string PyValue) (warnings : list Warning)
  : list Warning * (Func → Func) :=
  let msg := "action is pending deprecation. Use detail_route instead." in
  (warnings ++ [mkWarning msg "PendingDeprecationWarning"],
   decorator (default ["post"] methods) true kwargs).

(** The attributes the decorators write. *)
Definition route_attrs : list string := ["bind_to_methods"; "detail"; "kwargs"].

End routes.

(** ** More sample data *)

Module samples.
Import decorators services.

(** A [Task] as the ORM makes it: [_importing] is the class attribute
    ([_importing = None] in the class body), the instance has none of its
    own. *)
Definition fresh_task : Instance :=
  mkInstance ∅ {["_importing" := PyNone]}.

(** A method that raises and writes no attribute. *)
Definition raising : Method unit Z :=
  λ instance _, (instance, raise (KeyError "project")).

(** A method that returns and writes no attribute. *)
Definition returning : Method unit Z := λ instance _, (instance, ret 0).

(** A system account that was made a member of two projects and owns a story
    of the first, next to a member who owns the other story. *)
Definition system_member_db : Database := {|
  userstories_userstory := [
    mkUserStory 1 1 (Some 10) None (Some 7) None;
    mkUserStory 2 1 (Some 10) None (Some 100) None ];
  projects_project := [project_P; mkProject 2 "Q"];
  projects_userstorystatus := [mkUserStoryStatus 10 "New" "#999" 1 1];
  projects_membership := [
    mkMembership 1 (Some 7) 1; mkMembership 2 (Some 7) 2;
    mkMembership 3 (Some 100) 1 ];
  users_user := [mkUser 7 "Github" true; mkUser 100 "Alice" false];
|}.

End samples.

(** * Properties *)

Import decorators decorators_samples services.

(** ** [change_instance_attr] *)

Section change_instance_attr.
Context {Args Ret : Type}.
Implicit Types (fn : Method Args Ret) (instance : Instance).

Lemma getattribute_setattr instance name value :
  __getattribute__ (__setattr__ instance name value) name = inr value.
Proof.
  unfold __getattribute__, __setattr__. simpl.
  by rewrite lookup_insert_eq.
Qed.

Lemma getattribute_setattr_ne instance name name' value :
  name ≠ name' →
  __getattribute__ (__setattr__ instance name value) name'
  = __getattribute__ instance name'.
Proof.
  intros Hne. unfold __getattribute__, __setattr__. simpl.
  by rewrite lookup_insert_ne.
Qed.

(** Reading an attribute raises nothing but [AttributeError], so the
    wrapper's [except] clause catches every failed read. *)
Lemma getattribute_raises instance name e :
  __getattribute__ instance name = inl e → e = AttributeError name.
Proof.
  unfold __getattribute__.
  destruct (inst_dict instance !! name); [discriminate |].
  destruct (class_dict instance !! name); [discriminate |].
  by intros [= <-].
Qed.

(** When the instance has the attribute, the wrapper is: set, call, and on a
    normal return set back. *)
Lemma change_instance_attr_present name new_value fn instance args old_value :
  __getattribute__ instance name = inr old_value →
  change_instance_attr name new_value fn instance args
  = match fn (__setattr__ instance name new_value) args with
    | (instance', inr r) => (__setattr__ instance' name old_value, inr r)
    | (instance', inl e) => (instance', inl e)
    end.
Proof. intros H. unfold change_instance_attr. by rewrite H. Qed.

(** When it has not, the wrapper is the wrapped function. *)
Lemma change_instance_attr_absent name new_value fn instance args e :
  __getattribute__ instance name = inl e →
  change_instance_attr name new_value fn instance args = fn instance args.
Proof.
  intros H. unfold change_instance_attr. rewrite H.
  by rewrite (getattribute_raises _ _ _ H).
Qed.

(** C9, as amended. When the wrapped call returns normally: if the instance
    had the attribute, the wrapped function ran on the instance with the
    attribute set to the new value, and after the call the attribute reads
    its value from before the call again, whatever the wrapped function did
    to it; if reading the attribute raised [AttributeError], the wrapper
    itself never sets the attribute: the call is the wrapped function's call
    on the untouched instance, and the instance is left as the wrapped
    function left it. *)
Theorem change_instance_attr_restores name new_value fn instance args
    instance' r :
  change_instance_attr name new_value fn instance args = (instance', inr r) →
  (∀ old_value,
     __getattribute__ instance name = inr old_value →
     ∃ during,
       __getattribute__ (__setattr__ instance name new_value) name
         = inr new_value
       ∧ fn (__setattr__ instance name new_value) args = (during, inr r)
       ∧ instance' = __setattr__ during name old_value
       ∧ __getattribute__ instance' name = __getattribute__ instance name)
  ∧ (∀ e,
       __getattribute__ instance name = inl e →
       fn instance args = (instance', inr r)).
Proof.
  intros Hcall. split.
  - intros old_value Hold.
    rewrite (change_instance_attr_present _ _ _ _ _ _ Hold) in Hcall.
    destruct (fn (__setattr__ instance name new_value) args)
      as [during [e | r']] eqn:Hfn; [discriminate |].
    injection Hcall as <- <-.
    exists during. split_and!; [apply getattribute_setattr | done | done |].
    by rewrite getattribute_setattr, Hold.
  - intros e Hnone.
    by rewrite (change_instance_attr_absent _ _ _ _ _ _ Hnone) in Hcall.
Qed.

End change_instance_attr.

(** The amended C9 at an instance that has the attribute and a method that
    reads it: the method sees the new value, the caller the old one. *)
Lemma change_instance_attr_restores_witness :
  change_instance_attr "_importing" (PyBool true) reads_importing importing ()
    = (importing, inr (PyBool true))
  ∧ ∃ during,
      __getattribute__ (__setattr__ importing "_importing" (PyBool true))
        "_importing" = inr (PyBool true)
      ∧ reads_importing (__setattr__ importing "_importing" (PyBool true)) ()
        = (during, inr (PyBool true))
      ∧ importing = __setattr__ during "_importing" (PyBool false)
      ∧ __getattribute__ importing "_importing"
        = __getattribute__ importing "_importing".
Proof.
  assert (change_instance_attr "_importing" (PyBool true) reads_importing
            importing () = (importing, inr (PyBool true))) as Hcall.
  { vm_compute. reflexivity. }
  split; [exact Hcall |].
  apply (proj1 (change_instance_attr_restores "_importing" (PyBool true)
                  reads_importing importing () importing (PyBool true) Hcall)
           (PyBool false)).
  reflexivity.
Defined.

(** C9 as stated fails: on an instance without the attribute, a wrapped
    method that sets the attribute itself returns normally, and the
    attribute is not what it was before the call (it was absent, it is now
    [1]). *)
Lemma change_instance_attr_absent_not_preserved :
  let after :=
    change_instance_attr "_importing" (PyBool true) sets_importing bare () in
  after.2 = inr 0
  ∧ __getattribute__ bare "_importing" = inl (AttributeError "_importing")
  ∧ __getattribute__ after.1 "_importing" = inr (PyInt 1)
  ∧ __getattribute__ after.1 "_importing" ≠ __getattribute__ bare "_importing".
Proof.
  assert (__getattribute__ bare "_importing"
          = inl (AttributeError "_importing")) as Hbare by reflexivity.
  cbv zeta.
  rewrite (change_instance_attr_absent _ _ _ _ _ _ Hbare).
  unfold sets_importing. simpl.
  rewrite getattribute_setattr, Hbare. done.
Qed.

(** ** [calculate_userstory_is_closed] *)

(** C10. A user story without status is not closed, whatever its tasks. *)
Theorem calculate_userstory_is_closed_no_status (user_story : UserStoryObj) :
  status user_story = None →
  calculate_userstory_is_closed user_story = inr false.
Proof.
  intros Hnone. unfold calculate_userstory_is_closed. by rewrite Hnone.
Qed.

(** C10 at a story without status whose only task is closed. *)
Lemma calculate_userstory_is_closed_no_status_witness :
  calculate_userstory_is_closed
    (mkUserStoryObj None [mkTaskObj (Some (mkStatusObj true))]) = inr false.
Proof.
  apply calculate_userstory_is_closed_no_status. reflexivity.
Defined.

(** ** [sorted] *)

(** A column without repeated value determines its row. *)
Lemma NoDup_fmap_elem_of_inj {A B} (f : A → B) (l : list A) x y :
  NoDup (f <$> l) → x ∈ l → y ∈ l → f x = f y → x = y.
Proof.
  induction l as [| a l IH]; simpl; [by intros _ ?%elem_of_nil |].
  rewrite NoDup_cons.
  intros [Ha Hl] [-> | Hx]%elem_of_cons [-> | Hy]%elem_of_cons Hxy.
  - done.
  - destruct Ha. rewrite Hxy. by apply list_elem_of_fmap_2.
  - destruct Ha. rewrite <- Hxy. by apply list_elem_of_fmap_2.
  - by apply IH.
Qed.

Section sorted_properties.
Context {A K : Type} (key : A → K) (le : relation K) `{!RelDecision le}.

Lemma sorted_insert_Permutation x l : sorted_insert key le x l ≡ₚ x :: l.
Proof.
  induction l as [| y l IH]; simpl; [done |].
  case_decide; [done |].
  rewrite IH. apply Permutation_swap.
Qed.

Lemma sorted_Permutation l : sorted key le l ≡ₚ l.
Proof.
  induction l as [| x l IH]; simpl; [done |].
  by rewrite sorted_insert_Permutation, IH.
Qed.

Lemma elem_of_sorted x l : x ∈ sorted key le l ↔ x ∈ l.
Proof. by rewrite sorted_Permutation. Qed.

Lemma length_sorted l : length (sorted key le l) = length l.
Proof. by rewrite sorted_Permutation. Qed.

Lemma sorted_insert_HdRel `{!Total le} a x l :
  (by_key key le) a x → HdRel (by_key key le) a l → HdRel (by_key key le) a (sorted_insert key le x l).
Proof.
  intros Hax Hal. destruct l as [| y l]; simpl; [by constructor |].
  case_decide; constructor; [done |].
  by inversion Hal.
Qed.

Lemma Sorted_sorted_insert `{!Total le} x l :
  Sorted (by_key key le) l → Sorted (by_key key le) (sorted_insert key le x l).
Proof.
  induction 1 as [| y l Hl IH Hy]; simpl.
  - by repeat constructor.
  - case_decide as Hxy.
    + constructor; [by constructor |]. by constructor.
    + constructor; [done |].
      apply sorted_insert_HdRel; [| done].
      unfold by_key. by destruct (total le (key y) (key x)).
Qed.

Lemma Sorted_sorted `{!Total le} l : Sorted (by_key key le) (sorted key le l).
Proof.
  induction l as [| x l IH]; simpl; [constructor |].
  by apply Sorted_sorted_insert.
Qed.

(** Sorting a sorted list changes nothing. *)
Lemma sorted_insert_HdRel_cons x l :
  HdRel (by_key key le) x l → sorted_insert key le x l = x :: l.
Proof.
  destruct 1 as [| y l Hxy]; simpl; [done |]. by rewrite decide_True.
Qed.

Lemma sorted_Sorted l : Sorted (by_key key le) l → sorted key le l = l.
Proof.
  induction 1 as [| x l Hl IH Hx]; simpl; [done |].
  rewrite IH. by apply sorted_insert_HdRel_cons.
Qed.

(** Stability: the elements with a given key come out in the order they
    went in. *)
Lemma sorted_insert_stable `{!EqDecision K, !Reflexive le} k x l :
  filter (λ y, key y = k) (sorted_insert key le x l)
  = filter (λ y, key y = k) (x :: l).
Proof.
  induction l as [| y l IH]; simpl; [done |].
  case_decide as Hxy; [done |].
  rewrite filter_cons, IH, !filter_cons.
  destruct (decide (key y = k)) as [Hy | Hy],
           (decide (key x = k)) as [Hx | Hx]; try done.
  destruct Hxy. by rewrite Hx, Hy.
Qed.

Lemma sorted_stable `{!EqDecision K, !Reflexive le} k l :
  filter (λ y, key y = k) (sorted key le l) = filter (λ y, key y = k) l.
Proof.
  induction l as [| x l IH]; simpl; [done |].
  by rewrite sorted_insert_stable, !filter_cons, IH.
Qed.

(** A list whose keys are all different has one sorted arrangement: the
    result does not depend on the order the elements come in (the order in
    which Python iterates a set, the order in which SQL returns rows). *)
Lemma sorted_Permutation_unique
    `{!Total le, !Transitive le, !AntiSymm (=) le} l k :
  NoDup (key <$> l) → l ≡ₚ k → sorted key le l = sorted key le k.
Proof.
  intros Hkeys Hperm.
  assert (Transitive (by_key key le)) as Htrans.
  { intros a b c. unfold by_key. apply transitivity. }
  apply (Sorted_unique_strong (by_key key le)).
  - intros x1 x2. rewrite !elem_of_sorted, <- Hperm. unfold by_key.
    intros Hx1 Hx2 H12 H21.
    apply (NoDup_fmap_elem_of_inj key l); [done .. |].
    by apply (anti_symm le).
  - by apply Sorted_sorted.
  - by apply Sorted_sorted.
  - by rewrite !sorted_Permutation.
Qed.

End sorted_properties.

(** ** Joins, unions and counts *)

Lemma filter_nothing {A} (P : A → Prop) `{∀ x, Decision (P x)} (l : list A) :
  (∀ x, x ∈ l → ¬ P x) → filter P l = [].
Proof.
  induction l as [| x l IH]; intros HP; [done |].
  rewrite filter_cons_False by (apply HP; left).
  apply IH. intros y Hy. apply HP. by right.
Qed.

Lemma elem_of_inner_join {A B} (l : list A) (r : list B) on a b :
  (a, b) ∈ inner_join l r on ↔ a ∈ l ∧ b ∈ r ∧ on a b = true.
Proof.
  unfold inner_join. rewrite list_elem_of_bind. split.
  - intros (a' & Hab & Ha'). apply list_elem_of_fmap in Hab as (b' & [= -> ->] & Hb').
    apply list_elem_of_filter in Hb' as [Hon Hb']. by apply Is_true_true in Hon.
  - intros (Ha & Hb & Hon). exists a. split; [| done].
    apply list_elem_of_fmap. exists b. split; [done |].
    apply list_elem_of_filter. split; [by apply Is_true_true | done].
Qed.

Lemma elem_of_right_outer_join_Some {A B} (l : list A) (r : list B) on a b :
  (Some a, b) ∈ right_outer_join l r on ↔ a ∈ l ∧ b ∈ r ∧ on a b = true.
Proof.
  unfold right_outer_join. rewrite list_elem_of_bind. split.
  - intros (b' & Hab & Hb').
    destruct (filter (λ a0, on a0 b') l) as [| m ms] eqn:Hf.
    { by apply list_elem_of_singleton in Hab. }
    apply list_elem_of_fmap in Hab as (a' & [= -> ->] & Ha').
    rewrite <- Hf in Ha'. apply list_elem_of_filter in Ha' as [Hon Ha'].
    by apply Is_true_true in Hon.
  - intros (Ha & Hb & Hon). exists b. split; [| done].
    assert (a ∈ filter (λ a0, on a0 b) l) as Hin.
    { apply list_elem_of_filter. split; [by apply Is_true_true | done]. }
    destruct (filter (λ a0, on a0 b) l) as [| m ms]; [by apply elem_of_nil in Hin |].
    apply list_elem_of_fmap. by exists a.
Qed.

Lemma elem_of_right_outer_join_None {A B} (l : list A) (r : list B) on b :
  (None, b) ∈ right_outer_join l r on ↔ b ∈ r ∧ ∀ a, a ∈ l → on a b = false.
Proof.
  unfold right_outer_join. rewrite list_elem_of_bind. split.
  - intros (b' & Hab & Hb').
    destruct (filter (λ a0, on a0 b') l) as [| m ms] eqn:Hf.
    + apply list_elem_of_singleton in Hab as [= <-]. split; [done |].
      intros a Ha. destruct (on a b) eqn:Hon; [| done].
      assert (a ∈ filter (λ a0, on a0 b) l) as Hin.
      { apply list_elem_of_filter. split; [by apply Is_true_true | done]. }
      rewrite Hf in Hin. by apply elem_of_nil in Hin.
    + by apply list_elem_of_fmap in Hab as (a' & [=] & _).
  - intros (Hb & Hnone). exists b. split; [| done].
    destruct (filter (λ a0, on a0 b) l) as [| m ms] eqn:Hf; [by apply list_elem_of_singleton |].
    assert (m ∈ filter (λ a0, on a0 b) l) as Hin by (rewrite Hf; left).
    apply list_elem_of_filter in Hin as [Hon Hm].
    apply Is_true_true in Hon. by rewrite (Hnone m Hm) in Hon.
Qed.

(** Referential integrity makes the join with the projects keep every user
    story, once: [project_id] is a foreign key to [projects_project.id],
    the table's primary key. *)
Lemma filter_key_singleton {A B} `{EqDecision B} (f : A → B) (l : list A) y :
  NoDup (f <$> l) → y ∈ f <$> l →
  length (filter (λ x, y = f x) l) = 1%nat.
Proof.
  induction l as [| a l IH]; simpl.
  { by intros _ ?%elem_of_nil. }
  rewrite NoDup_cons, elem_of_cons, filter_cons. intros [Ha Hl] Hy.
  destruct (decide (y = f a)) as [-> | Hne]; simpl.
  - rewrite filter_nothing; [done |].
    intros x Hx Hfx. apply Ha. rewrite Hfx. by apply list_elem_of_fmap_2.
  - destruct Hy as [? | Hy]; [done |]. by apply IH.
Qed.

Lemma fst_userstory_rows db :
  NoDup (project_id <$> projects_project db) →
  (∀ us, us ∈ userstories_userstory db →
         us_project_id us ∈ project_id <$> projects_project db) →
  fst <$> userstory_rows db = userstories_userstory db.
Proof.
  intros Hpk. unfold userstory_rows, inner_join.
  induction (userstories_userstory db) as [| us l IH]; intros Hfk; [done |].
  rewrite bind_cons, fmap_app, IH by (intros us' ?; apply Hfk; by right).
  rewrite <- list_fmap_compose.
  pose proof (filter_key_singleton project_id (projects_project db)
                (us_project_id us) Hpk (Hfk us ltac:(left))) as Hone.
  rewrite (list_filter_iff _ (λ p, us_project_id us = project_id p)) by
    (intros p; apply bool_decide_spec).
  by destruct (filter _ (projects_project db)) as [| p [| p' ps]].
Qed.

(** Counting the rows that satisfy [c] and a condition [d] on the user story
    is counting the user stories of the rows that satisfy [c]. *)
Lemma select_count_and db (c : UserStory → Project → bool) (d : UserStory → bool) :
  select_count db (λ us p, c us p && d us)
  = length (filter (λ us, d us) (fst <$> select_where db c)).
Proof.
  unfold select_count, select_where.
  induction (userstory_rows db) as [| [us p] rows IH]; [done |].
  rewrite !filter_cons. simpl.
  destruct (c us p) eqn:Hc; simpl.
  - rewrite filter_cons. simpl. destruct (d us); simpl; by rewrite IH.
  - done.
Qed.

(** ** Parameter binding *)

Lemma bind_where_app w ps rest :
  length ps = placeholders w →
  bind_where w (ps ++ rest) = Some (holds w ps, rest).
Proof.
  intros Hlen. unfold bind_where.
  rewrite decide_True by (rewrite length_app; lia).
  by rewrite <- Hlen, take_app_length, drop_app_length.
Qed.

Lemma bind_where_Some w ps c rest :
  bind_where w ps = Some (c, rest) →
  ∃ ps1, ps = ps1 ++ rest ∧ length ps1 = placeholders w ∧ c = holds w ps1.
Proof.
  unfold bind_where. case_decide as Hle; [| discriminate].
  intros [= <- <-]. exists (take (placeholders w) ps).
  split_and!; [by rewrite take_drop | by rewrite length_take_le | done].
Qed.

Lemma bind_int_Some ps z rest :
  bind_int ps = Some (z, rest) → ps = SqlInt z :: rest.
Proof. destruct ps as [| [] ps]; simpl; congruence. Qed.

(** Each statement runs exactly when the parameters handed over are the
    queryset's, one per placeholder, and then on the queryset's predicate
    and the project's id. *)
Lemma queryset_sql_run w db ps :
  queryset_sql w db ps
  = if decide (length ps = placeholders w)
    then Some (fst <$> select_where db (holds w ps))
    else None.
Proof.
  unfold queryset_sql. case_decide as Hlen.
  - rewrite <- (app_nil_r ps) at 1. by rewrite bind_where_app.
  - destruct (bind_where w ps) as [[c rest] |] eqn:Hb; simpl; [| done].
    apply bind_where_Some in Hb as (ps1 & -> & Hlen1 & ->).
    case_guard as Hrest; simpl; [| done].
    subst rest. rewrite app_nil_r in Hlen. done.
Qed.

Lemma statuses_sql_run w db ps pid :
  statuses_sql w db (ps ++ [SqlInt pid])
  = if decide (length ps = placeholders w)
    then Some (statuses_rows db (holds w ps) pid)
    else None.
Proof.
  unfold statuses_sql. case_decide as Hlen.
  - by rewrite bind_where_app.
  - destruct (bind_where w _) as [[c rest] |] eqn:Hb; simpl; [| done].
    apply bind_where_Some in Hb as (ps1 & Hps & Hlen1 & ->).
    destruct (bind_int rest) as [[z rest'] |] eqn:Hi; simpl; [| done].
    apply bind_int_Some in Hi as ->.
    case_guard as Hrest; simpl; [| done]. subst rest'.
    apply (app_inj_2 _ _ [_] [_]) in Hps as [-> _]; done.
Qed.

Lemma assigned_to_sql_run w db ps pid :
  assigned_to_sql w db (ps ++ ps ++ [SqlInt pid])
  = if decide (length ps = placeholders w)
    then Some (assigned_to_rows db (holds w ps) (holds w ps) pid)
    else None.
Proof.
  unfold assigned_to_sql. case_decide as Hlen.
  - rewrite bind_where_app by done. simpl. by rewrite bind_where_app.
  - destruct (bind_where w _) as [[c rest] |] eqn:Hb; simpl; [| done].
    apply bind_where_Some in Hb as (ps1 & Hps & Hlen1 & ->).
    destruct (bind_where w rest) as [[c rest'] |] eqn:Hb; simpl; [| done].
    apply bind_where_Some in Hb as (ps2 & -> & Hlen2 & ->).
    destruct (bind_int rest') as [[z rest''] |] eqn:Hi; simpl; [| done].
    apply bind_int_Some in Hi as ->.
    case_guard as Hrest; simpl; [| done]. subst rest''.
    apply (f_equal length) in Hps. rewrite !length_app in Hps. simpl in Hps.
    lia.
Qed.

Lemma owners_sql_run w db ps pid :
  owners_sql w db (ps ++ [SqlInt pid])
  = if decide (length ps = placeholders w)
    then Some (owners_rows db (holds w ps) pid)
    else None.
Proof.
  unfold owners_sql. case_decide as Hlen.
  - by rewrite bind_where_app.
  - destruct (bind_where w _) as [[c rest] |] eqn:Hb; simpl; [| done].
    apply bind_where_Some in Hb as (ps1 & Hps & Hlen1 & ->).
    destruct (bind_int rest) as [[z rest'] |] eqn:Hi; simpl; [| done].
    apply bind_int_Some in Hi as ->.
    case_guard as Hrest; simpl; [| done]. subst rest'.
    apply (app_inj_2 _ _ [_] [_]) in Hps as [-> _]; done.
Qed.

(** ** What each facet function returns *)

Section runs.
Context (ugettext : string → string).
Implicit Types (c : Connection) (project : Project) (qs : Queryset).

Lemma outcome_inr {A} c q qs (a a' : A) :
  outcome c q qs a = inr a' ↔
  failure c q = None ∧ well_formed qs ∧ a' = a.
Proof.
  unfold outcome. destruct (failure c q) as [e |].
  { split; [discriminate | by intros [[=] _]]. }
  case_decide as Hwf.
  - split; [by intros [= ->] | by intros (_ & _ & ->)].
  - split; [discriminate | by intros (_ & ? & _)].
Qed.

Lemma _get_userstories_statuses_run c project qs :
  _get_userstories_statuses ugettext c project qs
  = outcome c QStatuses qs
      (sorted st_order Z.le
         (status_dict ugettext
          <$> statuses_rows (database c)
                (holds (query_where qs) (query_params qs))
                (project_id project))).
Proof.
  unfold _get_userstories_statuses, cursor_execute, outcome, well_formed.
  simpl. destruct (failure c QStatuses); [done |].
  rewrite statuses_sql_run. by case_decide.
Qed.

Lemma _get_userstories_assigned_to_run c project qs :
  _get_userstories_assigned_to c project qs
  = outcome c QAssignedTo qs
      (sorted p_full_name String.le
         (assigned_to_dict
          <$> assigned_to_rows (database c)
                (holds (query_where qs) (query_params qs))
                (holds (query_where qs) (query_params qs))
                (project_id project))).
Proof.
  unfold _get_userstories_assigned_to, cursor_execute, outcome, well_formed.
  simpl. destruct (failure c QAssignedTo); [done |].
  rewrite assigned_to_sql_run. by case_decide.
Qed.

Lemma _get_userstories_owners_run c project qs :
  _get_userstories_owners c project qs
  = outcome c QOwners qs
      (sorted p_full_name String.le
         (omap owner_dict
            (owners_rows (database c)
               (holds (query_where qs) (query_params qs))
               (project_id project)))).
Proof.
  unfold _get_userstories_owners, cursor_execute, outcome, well_formed.
  simpl. destruct (failure c QOwners); [done |].
  rewrite owners_sql_run. by case_decide.
Qed.

Lemma values_list_tags_run c qs :
  values_list_tags c qs
  = outcome c QTags qs (us_tags <$> filtered_collection (database c) qs).
Proof.
  unfold values_list_tags, cursor_execute, outcome, well_formed,
    filtered_collection.
  simpl. destruct (failure c QTags); [done |].
  rewrite queryset_sql_run. by case_decide.
Qed.

End runs.

(** ** The statuses facet *)

Lemma sql_eq_Some_r a x : sql_eq a (Some x) = true ↔ a = Some x.
Proof.
  destruct a as [y |]; simpl; [| done].
  rewrite bool_decide_eq_true. naive_solver.
Qed.

Lemma is_null_true {A} (a : option A) : is_null a = true ↔ a = None.
Proof. by destruct a. Qed.

(** The count subquery counts the items of the filtered collection. *)
Lemma select_count_collection db qs (d : UserStory → bool) (P : UserStory → Prop)
    `{∀ us, Decision (P us)} :
  (∀ us, d us = true ↔ P us) →
  select_count db (λ us p,
    holds (query_where qs) (query_params qs) us p && d us)
  = number_of P (filtered_collection db qs).
Proof.
  intros Hd. rewrite select_count_and.
  unfold number_of, filtered_collection. f_equal.
  apply list_filter_iff. intros us. rewrite <- Hd. apply Is_true_true.
Qed.

Section statuses.
Context (ugettext : string → string).

(** The rows of the statement, turned into dicts and sorted, are the
    records of the project's statuses in some order. *)
Lemma statuses_facet_Permutation c project qs :
  sorted st_order Z.le
    (status_dict ugettext
     <$> statuses_rows (database c)
           (holds (query_where qs) (query_params qs)) (project_id project))
  ≡ₚ status_record ugettext (filtered_collection (database c) qs)
     <$> project_statuses (database c) project.
Proof.
  rewrite sorted_Permutation. unfold statuses_rows, order_by.
  rewrite <- list_fmap_compose, sorted_Permutation.
  unfold project_statuses.
  match goal with |- ?a ≡ₚ ?b => assert (a = b) as ->; [| done] end.
  apply list_fmap_ext.
  intros _ s _. unfold status_record. simpl. f_equal.
  apply select_count_collection. intros us. apply sql_eq_Some_r.
Qed.

(** C1. The statuses facet holds one record per status of the project, no
    more and no less (the facet is a rearrangement of the project's statuses
    turned into records), also for a status no item is in; the count of a
    record is the number of items of the statuses-dimension filtered
    collection whose status is that status. *)
Theorem statuses_facet_per_status c project qs facet :
  _get_userstories_statuses ugettext c project qs = inr facet →
  facet ≡ₚ status_record ugettext (filtered_collection (database c) qs)
           <$> project_statuses (database c) project
  ∧ length facet = length (project_statuses (database c) project)
  ∧ ∀ s, s ∈ project_statuses (database c) project →
         ∃ r, r ∈ facet
              ∧ st_id r = status_id s
              ∧ st_count r
                = number_of (λ us, us_status_id us = Some (status_id s))
                    (filtered_collection (database c) qs).
Proof.
  rewrite _get_userstories_statuses_run, outcome_inr.
  intros (_ & _ & ->).
  pose proof (statuses_facet_Permutation c project qs) as Hperm.
  split_and!.
  - done.
  - by rewrite Hperm, length_fmap.
  - intros s Hs.
    exists (status_record ugettext (filtered_collection (database c) qs) s).
    split; [| done]. rewrite Hperm. apply list_elem_of_fmap. by exists s.
Qed.

End statuses.

(** C1 on the sample project: New (order 1) counts two stories, Done
    (order 2) one. *)
Lemma statuses_facet_per_status_witness :
  let facet := [mkStatusFacet 10 "New" "#999" 1 2;
                mkStatusFacet 11 "Done" "#0f0" 2 1] in
  let items := filtered_collection sample_db (in_project 1) in
  facet ≡ₚ status_record id items <$> project_statuses sample_db project_P
  ∧ length facet = length (project_statuses sample_db project_P)
  ∧ ∀ s, s ∈ project_statuses sample_db project_P →
         ∃ r, r ∈ facet
              ∧ st_id r = status_id s
              ∧ st_count r
                = number_of (λ us, us_status_id us = Some (status_id s)) items.
Proof.
  apply (statuses_facet_per_status id (healthy sample_db) project_P
           (in_project 1)).
  vm_compute. reflexivity.
Defined.

(** ** The assignees facet *)

Lemma or_empty_Some s : or_empty (Some s) = s.
Proof. by destruct s. Qed.

Section assigned_to.
Implicit Types (c : Connection) (project : Project) (qs : Queryset).

(** The rows of the statement's second [SELECT] are the project's members,
    each with the number of items assigned to them. *)
Lemma elem_of_assigned_to_members db qs pid project row :
  pid = project_id project →
  row ∈ ((λ r : Membership * User,
            (Some (user_id r.2), Some (user_full_name r.2),
             select_count db (λ us p,
               holds (query_where qs) (query_params qs) us p
               && sql_eq (us_assigned_to_id us) (membership_user_id r.1))))
         <$> filter (λ r : Membership * User,
                       bool_decide (membership_project_id r.1 = pid)
                       && negb (is_null (membership_user_id r.1)))
               (inner_join (projects_membership db) (users_user db)
                  (λ m u, sql_eq (membership_user_id m) (Some (user_id u)))))
  ↔ ∃ u, u ∈ project_members db project
         ∧ row = (Some (user_id u), Some (user_full_name u),
                  number_of (λ us, us_assigned_to_id us = Some (user_id u))
                    (filtered_collection db qs)).
Proof.
  intros ->. rewrite list_elem_of_fmap. split.
  - intros ([m u] & -> & Hmu). simpl.
    apply list_elem_of_filter in Hmu as [Hcond Hjoin]. simpl in Hcond.
    apply elem_of_inner_join in Hjoin as (Hm & Hu & Hon).
    apply sql_eq_Some_r in Hon.
    apply andb_True in Hcond as [Hproj _].
    apply bool_decide_unpack in Hproj.
    exists u. split.
    + apply list_elem_of_filter. split; [| done].
      apply Exists_exists. by exists m.
    + f_equal. rewrite Hon. apply select_count_collection.
      intros us. apply sql_eq_Some_r.
  - intros (u & Hu & ->).
    apply list_elem_of_filter in Hu as [Hmem Hu].
    apply Exists_exists in Hmem as (m & Hm & Hproj & Huser).
    exists (m, u). simpl. split.
    + f_equal. rewrite Huser. symmetry. apply select_count_collection.
      intros us. apply sql_eq_Some_r.
    + apply list_elem_of_filter. simpl. split.
      * rewrite Huser. simpl. rewrite andb_True. split; [| done].
        by apply bool_decide_pack.
      * apply elem_of_inner_join. split_and!; [done | done |].
        by apply sql_eq_Some_r.
Qed.

(** C4. The assignees facet is, rearranged, the "unassigned" record (id
    null, label the empty string, the number of filtered items without
    assignee) followed by one record per member of the project (id, full
    name, the number of filtered items assigned to them), members without
    any item included; no id occurs in two records. [users_user.id] is the
    table's primary key. *)
Theorem assigned_to_facet_per_member c project qs facet :
  NoDup (user_id <$> users_user (database c)) →
  _get_userstories_assigned_to c project qs = inr facet →
  let items := filtered_collection (database c) qs in
  facet ≡ₚ unassigned_record items
           :: (assignee_record items <$> project_members (database c) project)
  ∧ NoDup (p_id <$> facet).
Proof.
  intros Hpk. rewrite _get_userstories_assigned_to_run, outcome_inr.
  intros (_ & _ & ->). cbv zeta.
  set (items := filtered_collection (database c) qs).
  assert (NoDup (user_id <$> project_members (database c) project)) as Hmembers.
  { unfold project_members.
    refine (sublist_NoDup _ _ Hpk _).
    apply fmap_sublist, sublist_filter. }
  assert (NoDup (p_id <$> unassigned_record items
                  :: (assignee_record items
                      <$> project_members (database c) project))) as Hids.
  { rewrite fmap_cons. apply NoDup_cons. split.
    - rewrite <- list_fmap_compose. simpl.
      by intros (u & [=] & _)%list_elem_of_fmap.
    - rewrite <- list_fmap_compose.
      change (p_id ∘ assignee_record items) with (Some ∘ user_id).
      rewrite list_fmap_compose. by apply (NoDup_fmap_2 Some). }
  assert (sorted p_full_name String.le
            (assigned_to_dict
             <$> assigned_to_rows (database c)
                   (holds (query_where qs) (query_params qs))
                   (holds (query_where qs) (query_params qs))
                   (project_id project))
          ≡ₚ unassigned_record items
             :: (assignee_record items
                 <$> project_members (database c) project)) as Hperm.
  { rewrite sorted_Permutation. unfold assigned_to_rows, sql_union.
    apply NoDup_Permutation.
    - apply NoDup_fmap_2_strong; [| apply NoDup_remove_dups].
      intros x y Hx Hy. rewrite elem_of_remove_dups in Hx, Hy.
      simpl in Hx, Hy. apply elem_of_cons in Hx, Hy.
      destruct Hx as [-> | Hx], Hy as [-> | Hy].
      + done.
      + apply (elem_of_assigned_to_members _ _ _ project) in Hy
          as (u & _ & ->); [| done]. by intros [=].
      + apply (elem_of_assigned_to_members _ _ _ project) in Hx
          as (u & _ & ->); [| done]. by intros [=].
      + apply (elem_of_assigned_to_members _ _ _ project) in Hx
          as (u & _ & ->); [| done].
        apply (elem_of_assigned_to_members _ _ _ project) in Hy
          as (u' & _ & ->); [| done].
        unfold assigned_to_dict. rewrite !or_empty_Some.
        intros [= Hid Hname _]. by rewrite Hid, Hname.
    - by apply NoDup_fmap_1 in Hids.
    - intros r. rewrite list_elem_of_fmap. setoid_rewrite elem_of_remove_dups.
      simpl. setoid_rewrite elem_of_cons. split.
      + intros (row & -> & [-> | Hrow]).
        * left. unfold unassigned_record. simpl. f_equal.
          apply select_count_collection. intros us. apply is_null_true.
        * apply (elem_of_assigned_to_members _ _ _ project) in Hrow
            as (u & Hu & ->); [| done].
          right. apply list_elem_of_fmap. exists u. split; [| done].
          unfold assigned_to_dict. by rewrite or_empty_Some.
      + intros [-> | (u & -> & Hu)%list_elem_of_fmap].
        * eexists. split; [| by left]. unfold unassigned_record. simpl.
          f_equal. symmetry. apply select_count_collection.
          intros us. apply is_null_true.
        * exists (Some (user_id u), Some (user_full_name u),
                  number_of (λ us, us_assigned_to_id us = Some (user_id u))
                    items).
          split; [unfold assigned_to_dict; by rewrite or_empty_Some |].
          right. apply (elem_of_assigned_to_members _ _ _ project); [done |].
          by exists u. }
  split; [done |]. by rewrite Hperm.
Qed.

End assigned_to.

(** C4 on the sample project: one unassigned story, two of Alice's, none of
    Bob's. *)
Lemma assigned_to_facet_per_member_witness :
  let facet := [mkPersonFacet None "" 1;
                mkPersonFacet (Some 100) "Alice" 2;
                mkPersonFacet (Some 101) "Bob" 0] in
  let items := filtered_collection sample_db (in_project 1) in
  facet ≡ₚ unassigned_record items
           :: (assignee_record items <$> project_members sample_db project_P)
  ∧ NoDup (p_id <$> facet).
Proof.
  apply (assigned_to_facet_per_member (healthy sample_db) project_P
           (in_project 1)).
  - apply (bool_decide_unpack _). vm_compute. exact I.
  - vm_compute. reflexivity.
Defined.

(** ** The owners facet *)

(** A comparison with [NULL] holds of no row. *)
Lemma select_count_null db (c : UserStory → Project → bool)
    (col : UserStory → option Z) :
  select_count db (λ us p, c us p && sql_eq (col us) None) = 0%nat.
Proof.
  unfold select_count, select_where. rewrite filter_nothing; [done |].
  intros [us p] _ Hrow%Is_true_true. simpl in Hrow.
  destruct (col us); simpl in Hrow; rewrite andb_false_r in Hrow;
    discriminate.
Qed.

Section owners.
Implicit Types (c : Connection) (project : Project) (qs : Queryset).

(** No record of the owners facet has a zero count. *)
Lemma owners_facet_positive c project qs facet r :
  _get_userstories_owners c project qs = inr facet →
  r ∈ facet → (0 < p_count r)%nat.
Proof.
  rewrite _get_userstories_owners_run, outcome_inr.
  intros (_ & _ & ->). rewrite elem_of_sorted, list_elem_of_omap.
  intros ([[id full_name] count] & _ & Hdict). unfold owner_dict in Hdict.
  case_bool_decide; [| discriminate]. by injection Hdict as <-.
Qed.

(** Who gets a record: a person with a membership row (of this project, or
    of any project when the account is a system account) who owns at least
    one item of the collection. The count subquery compares the owner with
    ["projects_membership"."user_id"], which is [NULL] on the outer join's
    rows for users without membership: such a row counts no item, and the
    [if count > 0] drops it. *)
Lemma owners_facet_records c project qs facet r :
  _get_userstories_owners c project qs = inr facet →
  r ∈ facet ↔
  ∃ u m, u ∈ users_user (database c)
         ∧ m ∈ projects_membership (database c)
         ∧ membership_user_id m = Some (user_id u)
         ∧ (membership_project_id m = project_id project
            ∨ user_is_system u = true)
         ∧ r = owner_record (filtered_collection (database c) qs) u
         ∧ (0 < p_count r)%nat.
Proof.
  rewrite _get_userstories_owners_run, outcome_inr.
  intros (_ & _ & ->). rewrite elem_of_sorted, list_elem_of_omap.
  unfold owners_rows. setoid_rewrite list_elem_of_fmap. split.
  - intros (row & ([[m |] u] & -> & Hin) & Hdict);
      apply list_elem_of_filter in Hin as [Hcond Hjoin];
      simpl in Hcond, Hdict.
    + apply elem_of_right_outer_join_Some in Hjoin as (Hm & Hu & Hon).
      apply sql_eq_Some_r in Hon. rewrite Hon in Hdict, Hcond.
      rewrite (select_count_collection _ _ _
                 (λ us, us_owner_id us = Some (user_id u))) in Hdict
        by (intros us; apply sql_eq_Some_r).
      case_bool_decide as Hpos; [| discriminate]. injection Hdict as <-.
      exists u, m. split_and!; try done.
      simpl in Hcond. rewrite andb_true_r in Hcond.
      apply orb_True in Hcond as [Hproj | Hsys].
      * left. by apply bool_decide_unpack in Hproj.
      * right. by apply Is_true_true.
    + rewrite select_count_null in Hdict.
      case_bool_decide; [lia | discriminate].
  - intros (u & m & Hu & Hm & Huser & Hscope & -> & Hpos).
    exists (user_id u, user_full_name u,
            number_of (λ us, us_owner_id us = Some (user_id u))
              (filtered_collection (database c) qs)).
    split.
    + exists (Some m, u). simpl. rewrite Huser. split.
      * f_equal. symmetry. apply select_count_collection.
        intros us. apply sql_eq_Some_r.
      * apply list_elem_of_filter. simpl. rewrite Huser. simpl. split.
        -- rewrite andb_true_r. apply orb_True.
           destruct Hscope as [Hproj | Hsys]; [left | right].
           ++ by apply bool_decide_pack.
           ++ by apply Is_true_true.
        -- apply elem_of_right_outer_join_Some. split_and!; try done.
           by apply sql_eq_Some_r.
    + unfold owner_dict. simpl in Hpos. by rewrite bool_decide_true.
Qed.

End owners.

(** C5 fails on the code. The system account "Github" (the one the GitHub
    hook's migration creates: no membership) owns the only story of the
    project, and the owners facet is empty. *)
Lemma owners_facet_misses_system_account :
  filtered_collection github_db (in_project 1)
    = [mkUserStory 1 1 (Some 10) None (Some 7) None]
  ∧ users_user github_db = [mkUser 7 "Github" true]
  ∧ owner_record (filtered_collection github_db (in_project 1))
      (mkUser 7 "Github" true)
    = mkPersonFacet (Some 7) "Github" 1
  ∧ _get_userstories_owners (healthy github_db) project_P (in_project 1)
    = inr [].
Proof. split_and!; vm_compute; reflexivity. Qed.

(** ** Order of the facets *)

(** C6. Whatever the input, the statuses facet is non-decreasing in the
    statuses' declared order, and the assignees, owners and tags facets are
    non-decreasing in the label (full name), respectively the tag name, in
    the order Python compares strings (lexicographic, by code unit:
    [String.le]). *)
Theorem facets_sorted (ugettext : string → string) (c : Connection)
    (project : Project) (qs : Queryset) :
  (∀ facet, _get_userstories_statuses ugettext c project qs = inr facet →
            Sorted (by_key st_order Z.le) facet)
  ∧ (∀ facet, _get_userstories_assigned_to c project qs = inr facet →
              Sorted (by_key p_full_name String.le) facet)
  ∧ (∀ facet, _get_userstories_owners c project qs = inr facet →
              Sorted (by_key p_full_name String.le) facet)
  ∧ (∀ facet, _get_userstories_tags c qs = inr facet →
              Sorted (by_key tag_name String.le) facet).
Proof.
  split_and!; intros facet.
  - rewrite _get_userstories_statuses_run, outcome_inr.
    intros (_ & _ & ->). apply Sorted_sorted, _.
  - rewrite _get_userstories_assigned_to_run, outcome_inr.
    intros (_ & _ & ->). apply Sorted_sorted, _.
  - rewrite _get_userstories_owners_run, outcome_inr.
    intros (_ & _ & ->). apply Sorted_sorted, _.
  - unfold _get_userstories_tags. rewrite values_list_tags_run.
    unfold outcome. destruct (failure c QTags); [discriminate |].
    case_decide; [| discriminate]. simpl. intros [= <-].
    apply Sorted_sorted, _.
Qed.

(** C6 on the sample project: the four facets as returned, each in order. *)
Lemma facets_sorted_witness :
  Sorted (by_key st_order Z.le)
    [mkStatusFacet 10 "New" "#999" 1 2; mkStatusFacet 11 "Done" "#0f0" 2 1]
  ∧ Sorted (by_key p_full_name String.le)
      [mkPersonFacet None "" 1; mkPersonFacet (Some 100) "Alice" 2;
       mkPersonFacet (Some 101) "Bob" 0]
  ∧ Sorted (by_key p_full_name String.le)
      [mkPersonFacet (Some 100) "Alice" 2; mkPersonFacet (Some 101) "Bob" 1]
  ∧ Sorted (by_key tag_name String.le)
      [mkTagFacet "bug" 2; mkTagFacet "ui" 1].
Proof.
  pose proof (facets_sorted id (healthy sample_db) project_P (in_project 1))
    as (Hstatuses & Hassigned & Howners & Htags).
  split_and!;
    [apply Hstatuses | apply Hassigned | apply Howners | apply Htags];
    vm_compute; reflexivity.
Defined.

(** ** The tags facet *)

Lemma list_count_app {A} `{EqDecision A} (l k : list A) e :
  list_count (l ++ k) e = (list_count l e + list_count k e)%nat.
Proof. unfold list_count. by rewrite filter_app, length_app. Qed.

Lemma list_count_not_elem_of {A} `{EqDecision A} (l : list A) e :
  e ∉ l → list_count l e = 0%nat.
Proof.
  intros He. unfold list_count. rewrite filter_nothing; [done |].
  by intros x Hx ->.
Qed.

(** In a list without repetition an element occurs once or not at all. *)
Lemma list_count_NoDup {A} `{EqDecision A} (l : list A) e :
  NoDup l → list_count l e = if decide (e ∈ l) then 1%nat else 0%nat.
Proof.
  induction 1 as [| x l Hx Hl IH].
  - by rewrite decide_False by apply not_elem_of_nil.
  - change (x :: l) with ([x] ++ l). rewrite list_count_app, IH.
    unfold list_count at 1. rewrite filter_cons, filter_nil.
    destruct (decide (x = e)) as [-> | Hne]; simpl.
    + rewrite (decide_False (P := e ∈ l)) by done.
      by rewrite decide_True by left.
    + destruct (decide (e ∈ l)) as [Hin | Hnin].
      * by rewrite decide_True by (by right).
      * rewrite decide_False; [done |].
        by intros [-> | ?]%elem_of_cons.
Qed.

Lemma extend_tags_tags_of (tags : list string) (us : UserStory) :
  extend_tags tags (us_tags us) = tags ++ tags_of us.
Proof.
  unfold extend_tags, tags_of.
  destruct (us_tags us); simpl; [done | by rewrite app_nil_r].
Qed.

(** The loop over the tag lists accumulates the tags of the items, in
    order, skipping the null lists. *)
Lemma foldl_extend_tags (items : list UserStory) (tags : list string) :
  foldl extend_tags tags (us_tags <$> items) = tags ++ flattened_tags items.
Proof.
  revert tags. induction items as [| us items IH]; intros tags.
  - simpl. by rewrite app_nil_r.
  - rewrite fmap_cons. cbn [foldl]. rewrite IH, extend_tags_tags_of.
    unfold flattened_tags. by rewrite bind_cons, app_assoc.
Qed.

(** What the function returns when the queryset can be read. *)
Lemma _get_userstories_tags_run (c : Connection) (qs : Queryset) :
  _get_userstories_tags c qs
  = outcome c QTags qs
      (let tags := flattened_tags (filtered_collection (database c) qs) in
       sorted tag_name String.le
         ((λ e, mkTagFacet e (list_count tags e))
          <$> elements (list_to_set tags : gset string))).
Proof.
  unfold _get_userstories_tags. rewrite values_list_tags_run.
  unfold outcome. destruct (failure c QTags); [done |].
  case_decide; [| done]. simpl. by rewrite foldl_extend_tags.
Qed.

(** The facet does not depend on the order in which [set(tags)] is
    iterated. *)
Lemma tags_facet_any_iteration_order (tags : list string) (es : list string) :
  es ≡ₚ elements (list_to_set tags : gset string) →
  sorted tag_name String.le ((λ e, mkTagFacet e (list_count tags e)) <$> es)
  = sorted tag_name String.le
      ((λ e, mkTagFacet e (list_count tags e))
       <$> elements (list_to_set tags : gset string)).
Proof.
  intros Hperm. apply sorted_Permutation_unique; [apply _ .. | |].
  - rewrite <- list_fmap_compose. change (tag_name ∘ _) with (@id string).
    rewrite list_fmap_id, Hperm. apply NoDup_elements.
  - by rewrite Hperm.
Qed.

(** When no item carries a tag twice, the occurrences of a tag are the
    items that carry it. *)
Lemma list_count_flattened_tags (items : list UserStory) (t : string) :
  Forall (λ us, NoDup (tags_of us)) items →
  list_count (flattened_tags items) t
  = number_of (λ us, t ∈ tags_of us) items.
Proof.
  unfold flattened_tags, number_of.
  induction 1 as [| us items Hus Hitems IH]; [done |].
  rewrite bind_cons, list_count_app, IH, filter_cons, list_count_NoDup by done.
  by destruct (decide (t ∈ tags_of us)).
Qed.

(** Items whose tag list is null or empty add nothing to the tags. *)
Lemma flattened_tags_skip_empty (items : list UserStory) :
  flattened_tags (filter (λ us, us_tags us ≠ None ∧ us_tags us ≠ Some [])
                         items)
  = flattened_tags items.
Proof.
  unfold flattened_tags.
  induction items as [| us items IH]; [done |].
  rewrite filter_cons, bind_cons.
  case_decide as Hus; [by rewrite bind_cons, IH |].
  rewrite IH. assert (tags_of us = []) as ->; [| done].
  unfold tags_of. destruct (us_tags us) as [[| t l] |]; simpl; try done.
  destruct Hus. by split.
Qed.

(** C3, as amended. The tags facet holds exactly one record per distinct tag
    occurring in the tags-dimension filtered collection; the count of a
    record is the number of occurrences of its tag over the tag lists of
    the items, lists that are null or empty adding nothing; when no item
    carries a tag twice, that is the number of items whose tag list contains
    the tag. *)
Theorem tags_facet_counts (c : Connection) (qs : Queryset)
    (facet : list TagFacet) :
  _get_userstories_tags c qs = inr facet →
  let items := filtered_collection (database c) qs in
  NoDup (tag_name <$> facet)
  ∧ (∀ t, t ∈ tag_name <$> facet ↔ ∃ us, us ∈ items ∧ t ∈ tags_of us)
  ∧ (∀ r, r ∈ facet →
       tag_count r = list_count (flattened_tags items) (tag_name r)
       ∧ tag_count r
         = list_count
             (flattened_tags
                (filter (λ us, us_tags us ≠ None ∧ us_tags us ≠ Some [])
                        items))
             (tag_name r))
  ∧ (Forall (λ us, NoDup (tags_of us)) items →
     ∀ r, r ∈ facet →
          tag_count r = number_of (λ us, tag_name r ∈ tags_of us) items).
Proof.
  rewrite _get_userstories_tags_run, outcome_inr.
  intros (_ & _ & ->). cbv zeta.
  set (items := filtered_collection (database c) qs).
  set (tags := flattened_tags items).
  assert (∀ r, r ∈ sorted tag_name String.le
                     ((λ e, mkTagFacet e (list_count tags e))
                      <$> elements (list_to_set tags : gset string)) →
               tag_count r = list_count tags (tag_name r)) as Hcount.
  { intros r. rewrite elem_of_sorted, list_elem_of_fmap.
    by intros (e & -> & _). }
  assert (tag_name <$> sorted tag_name String.le
                         ((λ e, mkTagFacet e (list_count tags e))
                          <$> elements (list_to_set tags : gset string))
          ≡ₚ elements (list_to_set tags : gset string)) as Hnames.
  { rewrite sorted_Permutation, <- list_fmap_compose.
    change (tag_name ∘ _) with (@id string). by rewrite list_fmap_id. }
  split_and!.
  - rewrite Hnames. apply NoDup_elements.
  - intros t. rewrite Hnames, elem_of_elements, elem_of_list_to_set.
    unfold tags, flattened_tags. rewrite list_elem_of_bind.
    split; intros (us & ? & ?); by exists us.
  - intros r Hr. split; [by apply Hcount |].
    rewrite flattened_tags_skip_empty. by apply Hcount.
  - intros Hnodup r Hr. rewrite (Hcount r Hr).
    by apply list_count_flattened_tags.
Qed.

(** The amended C3 on the sample project, whose stories are tagged
    [bug, ui], [bug] and [] (no story carries a tag twice). *)
Lemma tags_facet_counts_witness :
  let facet := [mkTagFacet "bug" 2; mkTagFacet "ui" 1] in
  let items := filtered_collection sample_db (in_project 1) in
  NoDup (tag_name <$> facet)
  ∧ (∀ t, t ∈ tag_name <$> facet ↔ ∃ us, us ∈ items ∧ t ∈ tags_of us)
  ∧ (∀ r, r ∈ facet →
       tag_count r = list_count (flattened_tags items) (tag_name r)
       ∧ tag_count r
         = list_count
             (flattened_tags
                (filter (λ us, us_tags us ≠ None ∧ us_tags us ≠ Some [])
                        items))
             (tag_name r))
  ∧ ∀ r, r ∈ facet →
         tag_count r = number_of (λ us, tag_name r ∈ tags_of us) items.
Proof.
  pose proof (tags_facet_counts (healthy sample_db) (in_project 1)
                [mkTagFacet "bug" 2; mkTagFacet "ui" 1] eq_refl)
    as (Hnodup & Hnames & Hcount & Hitems).
  split_and!; [exact Hnodup | exact Hnames | exact Hcount |].
  apply Hitems. apply (bool_decide_unpack _). vm_compute. exact I.
Defined.

(** C3 as stated fails: one story tagged [bug, bug] gives the tag [bug] the
    count 2, and one item carries the tag. *)
Lemma tags_facet_counts_occurrences_not_items :
  let c := healthy repeated_tag_db in
  let items := filtered_collection repeated_tag_db (in_project 1) in
  _get_userstories_tags c (in_project 1) = inr [mkTagFacet "bug" 2]
  ∧ number_of (λ us, "bug" ∈ tags_of us) items = 1%nat
  ∧ ¬ (∀ facet r,
         _get_userstories_tags c (in_project 1) = inr facet →
         r ∈ facet →
         tag_count r = number_of (λ us, tag_name r ∈ tags_of us) items).
Proof.
  cbv zeta.
  assert (_get_userstories_tags (healthy repeated_tag_db) (in_project 1)
          = inr [mkTagFacet "bug" 2]) as Hrun by (vm_compute; reflexivity).
  assert (number_of (λ us, "bug" ∈ tags_of us)
            (filtered_collection repeated_tag_db (in_project 1)) = 1%nat)
    as Hitems by (vm_compute; reflexivity).
  split_and!; [exact Hrun | exact Hitems |].
  intros Hclaim.
  specialize (Hclaim _ (mkTagFacet "bug" 2) Hrun ltac:(left)).
  simpl in Hclaim. rewrite Hitems in Hclaim. discriminate.
Qed.

(** ** The project and the counts *)

(** Dropping rows of the left table before a join drops the joined rows
    they are part of. *)
Lemma inner_join_filter_l {A B} (P : A → Prop) `{∀ x, Decision (P x)}
    (l : list A) (r : list B) on :
  inner_join (filter P l) r on = filter (λ ab, P ab.1) (inner_join l r on).
Proof.
  unfold inner_join. induction l as [| a l IH]; [done |].
  rewrite bind_cons, filter_app, <- IH, filter_cons.
  destruct (decide (P a)) as [Ha | Ha].
  - rewrite bind_cons. f_equal.
    induction (filter (λ b, on a b) r) as [| b bs IHb]; [done |].
    rewrite fmap_cons, filter_cons_True by done. by rewrite <- IHb.
  - rewrite <- (app_nil_l (_ ≫= _)) at 1. f_equal. symmetry.
    apply filter_nothing. by intros ab (b & -> & _)%list_elem_of_fmap.
Qed.

(** A predicate that holds of the project's stories only selects the same
    rows whether or not the other projects' stories are there. *)
Lemma select_where_only_project project db cond :
  (∀ us p, cond us p = true → us_project_id us = project_id project) →
  select_where (only_project project db) cond = select_where db cond.
Proof.
  intros Hscoped. unfold select_where, userstory_rows, only_project. simpl.
  rewrite inner_join_filter_l, list_filter_filter.
  apply list_filter_iff. intros [us p]. simpl. split; [by intros [? _] |].
  intros Hcond. split; [done |]. by apply (Hscoped us p), Is_true_true.
Qed.

Lemma select_count_only_project project db cond :
  (∀ us p, cond us p = true → us_project_id us = project_id project) →
  select_count (only_project project db) cond = select_count db cond.
Proof.
  intros Hscoped. unfold select_count.
  by rewrite select_where_only_project.
Qed.

Lemma filtered_collection_only_project project db qs :
  scoped_to project qs →
  filtered_collection (only_project project db) qs
  = filtered_collection db qs.
Proof.
  intros Hscoped. unfold filtered_collection.
  by rewrite select_where_only_project.
Qed.

Section only_project.
Context (ugettext : string → string) (c : Connection) (project : Project).
Context (qs : Queryset) (Hscoped : scoped_to project qs).

(** Both connections fail on the same statements. *)
Lemma outcome_only_project {A} q (a a' : A) :
  a = a' → outcome (connection_only_project project c) q qs a = outcome c q qs a'.
Proof. by intros ->. Qed.

Lemma scoped_and (d : bool) us p :
  holds (query_where qs) (query_params qs) us p && d = true →
  us_project_id us = project_id project.
Proof. intros [Hw _]%andb_true_iff. exact (Hscoped us p Hw). Qed.

Lemma _get_userstories_statuses_only_project :
  _get_userstories_statuses ugettext (connection_only_project project c)
    project qs
  = _get_userstories_statuses ugettext c project qs.
Proof.
  rewrite !_get_userstories_statuses_run. apply outcome_only_project.
  do 2 f_equal. unfold statuses_rows.
  change (database (connection_only_project project c))
    with (only_project project (database c)).
  apply list_fmap_ext. intros _ s _. f_equal.
  apply select_count_only_project. intros us p. apply scoped_and.
Qed.

Lemma _get_userstories_assigned_to_only_project :
  _get_userstories_assigned_to (connection_only_project project c) project qs
  = _get_userstories_assigned_to c project qs.
Proof.
  rewrite !_get_userstories_assigned_to_run. apply outcome_only_project.
  do 2 f_equal. unfold assigned_to_rows.
  change (database (connection_only_project project c))
    with (only_project project (database c)).
  f_equal.
  - do 2 f_equal.
    apply select_count_only_project. intros us p. apply scoped_and.
  - apply list_fmap_ext. intros _ r _. f_equal.
    apply select_count_only_project. intros us p. apply scoped_and.
Qed.

Lemma _get_userstories_owners_only_project :
  _get_userstories_owners (connection_only_project project c) project qs
  = _get_userstories_owners c project qs.
Proof.
  rewrite !_get_userstories_owners_run. apply outcome_only_project.
  do 2 f_equal. unfold owners_rows.
  change (database (connection_only_project project c))
    with (only_project project (database c)).
  apply list_fmap_ext. intros _ r _. f_equal.
  apply select_count_only_project. intros us p. apply scoped_and.
Qed.

Lemma _get_userstories_tags_only_project :
  _get_userstories_tags (connection_only_project project c) qs
  = _get_userstories_tags c qs.
Proof.
  rewrite !_get_userstories_tags_run. apply outcome_only_project. simpl.
  by rewrite filtered_collection_only_project.
Qed.

End only_project.

(** C2, as amended. The functions put no condition of their own on the
    project of the items they count: the unassigned, per-assignee, per-owner
    and per-tag counts range over the whole filtered collection of their
    dimension. When the filtered collection of each dimension is scoped to
    the given project, no work item outside the project contributes to any
    returned count: the result is the one computed without the other
    projects' items. *)
Theorem filters_data_only_project (ugettext : string → string)
    (c : Connection) (project : Project) (querysets : gmap string Queryset) :
  (∀ key qs, querysets !! key = Some qs → scoped_to project qs) →
  get_userstories_filters_data ugettext (connection_only_project project c)
    project querysets
  = get_userstories_filters_data ugettext c project querysets.
Proof.
  intros Hscoped. unfold get_userstories_filters_data, getitem.
  destruct (querysets !! "statuses") as [qs1 |] eqn:H1; [| done]. simpl.
  rewrite _get_userstories_statuses_only_project by eauto.
  destruct (_get_userstories_statuses _ _ _ _); [done |]. simpl.
  destruct (querysets !! "assigned_to") as [qs2 |] eqn:H2; [| done]. simpl.
  rewrite _get_userstories_assigned_to_only_project by eauto.
  destruct (_get_userstories_assigned_to _ _ _); [done |]. simpl.
  destruct (querysets !! "owners") as [qs3 |] eqn:H3; [| done]. simpl.
  rewrite _get_userstories_owners_only_project by eauto.
  destruct (_get_userstories_owners _ _ _); [done |]. simpl.
  destruct (querysets !! "tags") as [qs4 |] eqn:H4; [| done]. simpl.
  by rewrite (_get_userstories_tags_only_project c project) by eauto.
Qed.

Lemma lookup_four (queryset qs : Queryset) (key : string) :
  four queryset !! key = Some qs → qs = queryset.
Proof.
  unfold four. rewrite !lookup_insert_Some, lookup_empty.
  intros [[_ ->] | [_ [[_ ->] | [_ [[_ ->] | [_ [[_ ->] | [_ [=]]]]]]]]]; done.
Qed.

Lemma scoped_to_in_project (project : Project) :
  scoped_to project (in_project (project_id project)).
Proof.
  intros us p. simpl. by intros ?%bool_decide_eq_true.
Qed.

(** The amended C2 on the sample data, each dimension filtered by the
    project. *)
Lemma filters_data_only_project_witness :
  get_userstories_filters_data id
    (connection_only_project project_P (healthy sample_db))
    project_P (four (in_project 1))
  = get_userstories_filters_data id (healthy sample_db)
      project_P (four (in_project 1)).
Proof.
  apply (filters_data_only_project id (healthy sample_db) project_P
           (four (in_project 1))).
  intros key qs ->%lookup_four. exact (scoped_to_in_project project_P).
Defined.

(** C2 as stated fails: with collections built from a predicate broader
    than the project, the counts of project P take in the stories of
    project Q. Of P's stories one is unassigned, two are Alice's and one is
    owned by Bob; the facets count two, three and two, and the tag of a
    story of Q is listed. Without the stories of Q the result is another. *)
Lemma filters_data_counts_other_projects :
  let whole :=
    get_userstories_filters_data id (healthy sample_db) project_P
      (four everything) in
  let without_others :=
    get_userstories_filters_data id
      (connection_only_project project_P (healthy sample_db)) project_P
      (four everything) in
  whole
  = inr [("statuses",
          StatusFacets [mkStatusFacet 10 "New" "#999" 1 2;
                        mkStatusFacet 11 "Done" "#0f0" 2 1]);
         ("assigned_to",
          PersonFacets [mkPersonFacet None "" 2;
                        mkPersonFacet (Some 100) "Alice" 3;
                        mkPersonFacet (Some 101) "Bob" 0]);
         ("owners",
          PersonFacets [mkPersonFacet (Some 100) "Alice" 2;
                        mkPersonFacet (Some 101) "Bob" 2]);
         ("tags",
          TagFacets [mkTagFacet "bug" 2; mkTagFacet "ops" 1;
                     mkTagFacet "ui" 1])]
  ∧ without_others
    = inr [("statuses",
            StatusFacets [mkStatusFacet 10 "New" "#999" 1 2;
                          mkStatusFacet 11 "Done" "#0f0" 2 1]);
           ("assigned_to",
            PersonFacets [mkPersonFacet None "" 1;
                          mkPersonFacet (Some 100) "Alice" 2;
                          mkPersonFacet (Some 101) "Bob" 0]);
           ("owners",
            PersonFacets [mkPersonFacet (Some 100) "Alice" 2;
                          mkPersonFacet (Some 101) "Bob" 1]);
           ("tags",
            TagFacets [mkTagFacet "bug" 2; mkTagFacet "ui" 1])]
  ∧ whole ≠ without_others.
Proof.
  cbv zeta. split_and!; [vm_compute; reflexivity .. |].
  vm_compute. discriminate.
Qed.

(** ** The composition *)

Section filters_data.
Context (ugettext : string → string).
Implicit Types (c : Connection) (project : Project).
Implicit Types (querysets : gmap string Queryset).

(** The function returns exactly when the four querysets are there and the
    four facet functions return, and then the four facets under their keys,
    in the order of the source. *)
Lemma get_userstories_filters_data_inr c project querysets data :
  get_userstories_filters_data ugettext c project querysets = inr data ↔
  ∃ qs1 qs2 qs3 qs4 statuses assigned_to owners tags,
    querysets !! "statuses" = Some qs1
    ∧ querysets !! "assigned_to" = Some qs2
    ∧ querysets !! "owners" = Some qs3
    ∧ querysets !! "tags" = Some qs4
    ∧ _get_userstories_statuses ugettext c project qs1 = inr statuses
    ∧ _get_userstories_assigned_to c project qs2 = inr assigned_to
    ∧ _get_userstories_owners c project qs3 = inr owners
    ∧ _get_userstories_tags c qs4 = inr tags
    ∧ data = [("statuses", StatusFacets statuses);
              ("assigned_to", PersonFacets assigned_to);
              ("owners", PersonFacets owners);
              ("tags", TagFacets tags)].
Proof.
  unfold get_userstories_filters_data, getitem. split.
  - destruct (querysets !! "statuses") as [qs1 |]; [| discriminate]. simpl.
    destruct (_get_userstories_statuses _ _ _ _) as [| statuses] eqn:H1;
      [discriminate |]. simpl.
    destruct (querysets !! "assigned_to") as [qs2 |]; [| discriminate]. simpl.
    destruct (_get_userstories_assigned_to _ _ _) as [| assigned_to] eqn:H2;
      [discriminate |]. simpl.
    destruct (querysets !! "owners") as [qs3 |]; [| discriminate]. simpl.
    destruct (_get_userstories_owners _ _ _) as [| owners] eqn:H3;
      [discriminate |]. simpl.
    destruct (querysets !! "tags") as [qs4 |]; [| discriminate]. simpl.
    destruct (_get_userstories_tags _ _) as [| tags] eqn:H4;
      [discriminate |]. simpl.
    intros [= <-].
    by exists qs1, qs2, qs3, qs4, statuses, assigned_to, owners, tags.
  - intros (qs1 & qs2 & qs3 & qs4 & statuses & assigned_to & owners & tags
            & -> & -> & -> & -> & H1 & H2 & H3 & H4 & ->).
    simpl. rewrite H1. simpl. rewrite H2. simpl. rewrite H3. simpl.
    by rewrite H4.
Qed.

(** It does return when the data source refuses nothing and every queryset
    comes with the parameters of its own predicate. *)
Lemma get_userstories_filters_data_returns c project querysets
    qs1 qs2 qs3 qs4 :
  querysets !! "statuses" = Some qs1 →
  querysets !! "assigned_to" = Some qs2 →
  querysets !! "owners" = Some qs3 →
  querysets !! "tags" = Some qs4 →
  (∀ q, failure c q = None) →
  well_formed qs1 → well_formed qs2 → well_formed qs3 → well_formed qs4 →
  ∃ data,
    get_userstories_filters_data ugettext c project querysets = inr data.
Proof.
  intros Hq1 Hq2 Hq3 Hq4 Hhealthy Hwf1 Hwf2 Hwf3 Hwf4.
  eexists. apply get_userstories_filters_data_inr.
  exists qs1, qs2, qs3, qs4. do 4 eexists.
  split_and!; try done.
  - rewrite _get_userstories_statuses_run. by apply outcome_inr.
  - rewrite _get_userstories_assigned_to_run. by apply outcome_inr.
  - rewrite _get_userstories_owners_run. by apply outcome_inr.
  - rewrite _get_userstories_tags_run. by apply outcome_inr.
Qed.

(** The assignees facet always holds the "unassigned" record. *)
Lemma assigned_to_facet_unassigned c project qs facet :
  _get_userstories_assigned_to c project qs = inr facet →
  unassigned_record (filtered_collection (database c) qs) ∈ facet.
Proof.
  rewrite _get_userstories_assigned_to_run, outcome_inr.
  intros (_ & _ & ->). rewrite elem_of_sorted, list_elem_of_fmap.
  eexists. split; [| apply elem_of_remove_dups; left].
  unfold unassigned_record, assigned_to_dict. simpl. f_equal. symmetry.
  apply select_count_collection. intros us. apply is_null_true.
Qed.

(** The assignees facet always holds the record of every member of the
    project, whatever the number of items assigned to them. *)
Lemma assigned_to_facet_members c project qs facet (u : User) :
  _get_userstories_assigned_to c project qs = inr facet →
  u ∈ project_members (database c) project →
  assignee_record (filtered_collection (database c) qs) u ∈ facet.
Proof.
  rewrite _get_userstories_assigned_to_run, outcome_inr.
  intros (_ & _ & ->) Hu. rewrite elem_of_sorted, list_elem_of_fmap.
  exists (Some (user_id u), Some (user_full_name u),
          number_of (λ us, us_assigned_to_id us = Some (user_id u))
            (filtered_collection (database c) qs)).
  split; [unfold assigned_to_dict; by rewrite or_empty_Some |].
  unfold assigned_to_rows, sql_union. apply elem_of_remove_dups.
  simpl. apply elem_of_cons. right.
  apply (elem_of_assigned_to_members _ _ _ project); [done |]. by exists u.
Qed.

(** Over an empty collection the owners facet is empty. *)
Lemma owners_facet_empty c project qs facet :
  _get_userstories_owners c project qs = inr facet →
  filtered_collection (database c) qs = [] → facet = [].
Proof.
  intros Hrun Hempty. destruct facet as [| r facet]; [done |].
  assert (r ∈ r :: facet) as Hr by left.
  apply (owners_facet_records _ _ _ _ _ Hrun) in Hr
    as (u & m & _ & _ & _ & _ & -> & Hpos).
  rewrite Hempty in Hpos. unfold owner_record, number_of in Hpos.
  rewrite filter_nil in Hpos. simpl in Hpos. lia.
Qed.

(** Over an empty collection the tags facet is empty. *)
Lemma tags_facet_empty c qs facet :
  _get_userstories_tags c qs = inr facet →
  filtered_collection (database c) qs = [] → facet = [].
Proof.
  rewrite _get_userstories_tags_run, outcome_inr.
  intros (_ & _ & ->) ->. cbv zeta. unfold flattened_tags. simpl.
  by rewrite elements_empty.
Qed.

(** C7, as amended. Whenever it returns, the mapping holds exactly the four
    keys statuses, assigned_to, owners and tags, in that order, also when a
    collection is empty: never a missing key. Over an empty collection the
    owners and the tags values are empty sequences; the statuses value still
    lists every status of the project, with count 0, and the assigned_to
    value still holds the "unassigned" record and the record of every member
    of the project, with count 0. *)
Theorem filters_data_keys c project querysets data :
  get_userstories_filters_data ugettext c project querysets = inr data →
  keys data = ["statuses"; "assigned_to"; "owners"; "tags"]
  ∧ ∃ qs1 qs2 qs3 qs4 statuses assigned_to owners tags,
      querysets !! "statuses" = Some qs1
      ∧ querysets !! "assigned_to" = Some qs2
      ∧ querysets !! "owners" = Some qs3
      ∧ querysets !! "tags" = Some qs4
      ∧ data = [("statuses", StatusFacets statuses);
                ("assigned_to", PersonFacets assigned_to);
                ("owners", PersonFacets owners);
                ("tags", TagFacets tags)]
      ∧ (filtered_collection (database c) qs1 = [] →
         statuses ≡ₚ status_record ugettext []
                     <$> project_statuses (database c) project)
      ∧ (filtered_collection (database c) qs2 = [] →
         unassigned_record [] ∈ assigned_to
         ∧ ∀ u, u ∈ project_members (database c) project →
                assignee_record [] u ∈ assigned_to
                ∧ p_count (assignee_record [] u) = 0%nat)
      ∧ (filtered_collection (database c) qs3 = [] → owners = [])
      ∧ (filtered_collection (database c) qs4 = [] → tags = []).
Proof.
  rewrite get_userstories_filters_data_inr.
  intros (qs1 & qs2 & qs3 & qs4 & statuses & assigned_to & owners & tags
          & Hq1 & Hq2 & Hq3 & Hq4 & H1 & H2 & H3 & H4 & ->).
  split; [done |].
  exists qs1, qs2, qs3, qs4, statuses, assigned_to, owners, tags.
  split_and!; try done.
  - intros Hempty. rewrite <- Hempty.
    rewrite _get_userstories_statuses_run, outcome_inr in H1.
    destruct H1 as (_ & _ & ->). apply statuses_facet_Permutation.
  - intros Hempty. split.
    + rewrite <- Hempty. by apply (assigned_to_facet_unassigned c project).
    + intros u Hu. split; [| done]. rewrite <- Hempty.
      by apply (assigned_to_facet_members c project).
  - by apply (owners_facet_empty c project).
  - by apply tags_facet_empty.
Qed.

End filters_data.

(** The amended C7 on a project that has a status and a member and no
    story. *)
Lemma filters_data_keys_witness :
  let data := [("statuses", StatusFacets [mkStatusFacet 10 "New" "#999" 1 0]);
               ("assigned_to",
                PersonFacets [mkPersonFacet None "" 0;
                              mkPersonFacet (Some 100) "Alice" 0]);
               ("owners", PersonFacets []);
               ("tags", TagFacets [])] in
  get_userstories_filters_data id (healthy no_story_db) project_P
    (four (in_project 1)) = inr data
  ∧ keys data = ["statuses"; "assigned_to"; "owners"; "tags"].
Proof.
  assert (get_userstories_filters_data id (healthy no_story_db) project_P
            (four (in_project 1))
          = inr [("statuses",
                  StatusFacets [mkStatusFacet 10 "New" "#999" 1 0]);
                 ("assigned_to",
                  PersonFacets [mkPersonFacet None "" 0;
                                mkPersonFacet (Some 100) "Alice" 0]);
                 ("owners", PersonFacets []);
                 ("tags", TagFacets [])]) as Hrun.
  { vm_compute. reflexivity. }
  split; [exact Hrun |].
  exact (proj1 (filters_data_keys id (healthy no_story_db) project_P
                  (four (in_project 1)) _ Hrun)).
Defined.

(** C7 as stated fails in its parenthesis: over empty collections the
    statuses and assigned_to values are not empty sequences. *)
Lemma filters_data_empty_collection_not_empty_values :
  filtered_collection no_story_db (in_project 1) = []
  ∧ get_userstories_filters_data id (healthy no_story_db) project_P
      (four (in_project 1))
    = inr [("statuses", StatusFacets [mkStatusFacet 10 "New" "#999" 1 0]);
           ("assigned_to",
            PersonFacets [mkPersonFacet None "" 0;
                          mkPersonFacet (Some 100) "Alice" 0]);
           ("owners", PersonFacets []);
           ("tags", TagFacets [])]
  ∧ ¬ (∀ data,
         get_userstories_filters_data id (healthy no_story_db) project_P
           (four (in_project 1)) = inr data →
         ("statuses", StatusFacets []) ∈ data
         ∧ ("assigned_to", PersonFacets []) ∈ data).
Proof.
  assert (get_userstories_filters_data id (healthy no_story_db) project_P
            (four (in_project 1))
          = inr [("statuses",
                  StatusFacets [mkStatusFacet 10 "New" "#999" 1 0]);
                 ("assigned_to",
                  PersonFacets [mkPersonFacet None "" 0;
                                mkPersonFacet (Some 100) "Alice" 0]);
                 ("owners", PersonFacets []);
                 ("tags", TagFacets [])]) as Hrun
    by (vm_compute; reflexivity).
  split_and!; [vm_compute; reflexivity | exact Hrun |].
  intros Hclaim. destruct (Hclaim _ Hrun) as [Hstatuses _].
  apply (bool_decide_pack _) in Hstatuses.
  vm_compute in Hstatuses. exact Hstatuses.
Qed.

(** A statement the data source refuses makes its function raise what the
    data source raised. *)
Lemma outcome_failure {A} (c : Connection) (q : Query) (qs : Queryset)
    (a : A) (e : Exception) :
  failure c q = Some e → outcome c q qs a = inl e.
Proof. intros Hq. unfold outcome. by rewrite Hq. Qed.

(** C8. When the statement of a dimension fails (the data source refuses
    it), the whole call fails and no mapping is returned: the exception is
    that of a failed dimension, and it is the exception of the failed
    statement itself when the dimensions computed before it returned
    (statuses, assigned_to, owners, tags is the order). A mapping that is
    returned means that no statement failed, and it holds the complete
    result of each of the four dimensions. *)
Theorem filters_data_all_or_nothing (ugettext : string → string)
    (c : Connection) (project : Project) (querysets : gmap string Queryset)
    (qs1 qs2 qs3 qs4 : Queryset) :
  querysets !! "statuses" = Some qs1 →
  querysets !! "assigned_to" = Some qs2 →
  querysets !! "owners" = Some qs3 →
  querysets !! "tags" = Some qs4 →
  let whole := get_userstories_filters_data ugettext c project querysets in
  let r1 := _get_userstories_statuses ugettext c project qs1 in
  let r2 := _get_userstories_assigned_to c project qs2 in
  let r3 := _get_userstories_owners c project qs3 in
  let r4 := _get_userstories_tags c qs4 in
  (∀ q e, failure c q = Some e →
     ∃ e', whole = inl e'
           ∧ (r1 = inl e' ∨ r2 = inl e' ∨ r3 = inl e' ∨ r4 = inl e'))
  ∧ (∀ e, failure c QStatuses = Some e → whole = inl e)
  ∧ (∀ e statuses,
       r1 = inr statuses → failure c QAssignedTo = Some e → whole = inl e)
  ∧ (∀ e statuses assigned_to,
       r1 = inr statuses → r2 = inr assigned_to →
       failure c QOwners = Some e → whole = inl e)
  ∧ (∀ e statuses assigned_to owners,
       r1 = inr statuses → r2 = inr assigned_to → r3 = inr owners →
       failure c QTags = Some e → whole = inl e)
  ∧ ((∃ e, r1 = inl e ∨ r2 = inl e ∨ r3 = inl e ∨ r4 = inl e) →
     ∃ e, whole = inl e
          ∧ (r1 = inl e ∨ r2 = inl e ∨ r3 = inl e ∨ r4 = inl e))
  ∧ (∀ data, whole = inr data →
       (∀ q, failure c q = None)
       ∧ ∃ statuses assigned_to owners tags,
           r1 = inr statuses ∧ r2 = inr assigned_to
           ∧ r3 = inr owners ∧ r4 = inr tags
           ∧ data = [("statuses", StatusFacets statuses);
                     ("assigned_to", PersonFacets assigned_to);
                     ("owners", PersonFacets owners);
                     ("tags", TagFacets tags)]).
Proof.
  intros Hq1 Hq2 Hq3 Hq4. cbv zeta.
  assert (∀ q e, failure c q = Some e →
            ∃ e', _get_userstories_statuses ugettext c project qs1 = inl e'
                  ∨ _get_userstories_assigned_to c project qs2 = inl e'
                  ∨ _get_userstories_owners c project qs3 = inl e'
                  ∨ _get_userstories_tags c qs4 = inl e') as Hfailed.
  { intros q e Hq. exists e. destruct q.
    - left. rewrite _get_userstories_statuses_run.
      by apply outcome_failure.
    - right. left. rewrite _get_userstories_assigned_to_run.
      by apply outcome_failure.
    - right. right. left. rewrite _get_userstories_owners_run.
      by apply outcome_failure.
    - right. right. right. rewrite _get_userstories_tags_run.
      by apply outcome_failure. }
  assert ((∃ e, _get_userstories_statuses ugettext c project qs1 = inl e
                ∨ _get_userstories_assigned_to c project qs2 = inl e
                ∨ _get_userstories_owners c project qs3 = inl e
                ∨ _get_userstories_tags c qs4 = inl e) →
          ∃ e, get_userstories_filters_data ugettext c project querysets
               = inl e
               ∧ (_get_userstories_statuses ugettext c project qs1 = inl e
                  ∨ _get_userstories_assigned_to c project qs2 = inl e
                  ∨ _get_userstories_owners c project qs3 = inl e
                  ∨ _get_userstories_tags c qs4 = inl e)) as Hfirst.
  { unfold get_userstories_filters_data, getitem.
    rewrite Hq1, Hq2, Hq3, Hq4. simpl.
    destruct (_get_userstories_statuses ugettext c project qs1)
      as [e1 | statuses]; simpl.
    { intros _. exists e1. auto. }
    destruct (_get_userstories_assigned_to c project qs2)
      as [e2 | assigned_to]; simpl.
    { intros _. exists e2. auto. }
    destruct (_get_userstories_owners c project qs3) as [e3 | owners]; simpl.
    { intros _. exists e3. auto. }
    destruct (_get_userstories_tags c qs4) as [e4 | tags]; simpl.
    { intros _. exists e4. auto 6. }
    intros (e & [? | [? | [? | ?]]]); discriminate. }
  split_and!.
  - intros q e Hq. apply Hfirst. by apply (Hfailed q e).
  - intros e Hq. unfold get_userstories_filters_data, getitem.
    rewrite Hq1. simpl.
    rewrite _get_userstories_statuses_run, (outcome_failure _ _ _ _ _ Hq).
    done.
  - intros e statuses H1 Hq. unfold get_userstories_filters_data, getitem.
    rewrite Hq1. simpl. rewrite H1. simpl. rewrite Hq2. simpl.
    rewrite _get_userstories_assigned_to_run,
      (outcome_failure _ _ _ _ _ Hq).
    done.
  - intros e statuses assigned_to H1 H2 Hq.
    unfold get_userstories_filters_data, getitem.
    rewrite Hq1. simpl. rewrite H1. simpl. rewrite Hq2. simpl.
    rewrite H2. simpl. rewrite Hq3. simpl.
    rewrite _get_userstories_owners_run, (outcome_failure _ _ _ _ _ Hq).
    done.
  - intros e statuses assigned_to owners H1 H2 H3 Hq.
    unfold get_userstories_filters_data, getitem.
    rewrite Hq1. simpl. rewrite H1. simpl. rewrite Hq2. simpl.
    rewrite H2. simpl. rewrite Hq3. simpl. rewrite H3. simpl.
    rewrite Hq4. simpl.
    rewrite _get_userstories_tags_run, (outcome_failure _ _ _ _ _ Hq).
    done.
  - exact Hfirst.
  - intros data Hdata. split.
    + intros q. destruct (failure c q) as [e |] eqn:Hq; [| done].
      destruct (Hfirst (Hfailed q e Hq)) as (e' & Hwhole & _).
      rewrite Hwhole in Hdata. discriminate.
    + apply get_userstories_filters_data_inr in Hdata
        as (qs1' & qs2' & qs3' & qs4' & statuses & assigned_to & owners
            & tags & Hq1' & Hq2' & Hq3' & Hq4' & H1 & H2 & H3 & H4 & ->).
      rewrite Hq1 in Hq1'. rewrite Hq2 in Hq2'. rewrite Hq3 in Hq3'.
      rewrite Hq4 in Hq4'.
      injection Hq1' as <-. injection Hq2' as <-. injection Hq3' as <-.
      injection Hq4' as <-.
      by exists statuses, assigned_to, owners, tags.
Qed.

(** C8 on the sample data when the connection is lost during the owners
    statement: statuses and assignees were computed, and the caller gets the
    exception of the owners statement, no mapping. *)
Lemma filters_data_all_or_nothing_witness :
  ∃ e, get_userstories_filters_data id (owners_down sample_db) project_P
         (four (in_project 1)) = inl e
       ∧ failure (owners_down sample_db) QOwners = Some e
       ∧ e = DatabaseError "connection lost".
Proof.
  destruct (filters_data_all_or_nothing id (owners_down sample_db) project_P
              (four (in_project 1)) (in_project 1) (in_project 1)
              (in_project 1) (in_project 1)
              eq_refl eq_refl eq_refl eq_refl)
    as (_ & _ & _ & Howners & _).
  exists (DatabaseError "connection lost"). split; [| done].
  eapply Howners; vm_compute; reflexivity.
Defined.

(** * Further properties of the code *)

(** ** [close_userstory] and [open_userstory] *)

Section lifecycle.
Import lifecycle.
Implicit Types (pre_save : Fields → Fields) (s : Session).

Lemma model_save_is_closed_finish_date s :
  other_fields (row s) → other_fields (instance s) →
  row (model_save ["is_closed"; "finish_date"] s)
  = mkFields (story_is_closed (instance s)) (story_finish_date (instance s))
      (story_other (row s)).
Proof.
  intros [Hr1 Hr2] [Hi1 Hi2]. unfold model_save. simpl.
  f_equal.
  apply map_eq. intros k. rewrite lookup_union.
  rewrite !map_lookup_filter.
  destruct (decide (k ∈ ["is_closed"; "finish_date"])) as [Hk | Hk].
  - assert (story_other (instance s) !! k = None) as ->.
    { apply elem_of_cons in Hk as [-> | Hk]; [done |].
      by apply list_elem_of_singleton in Hk as ->. }
    assert (story_other (row s) !! k = None) as ->.
    { apply elem_of_cons in Hk as [-> | Hk]; [done |].
      by apply list_elem_of_singleton in Hk as ->. }
    done.
  - destruct (story_other (instance s) !! k) as [v |] eqn:Hi; simpl.
    + rewrite option_guard_False by done. simpl.
      destruct (story_other (row s) !! k); simpl; [| done].
      by rewrite option_guard_True.
    + destruct (story_other (row s) !! k); simpl; [| done].
      by rewrite option_guard_True.
Qed.

(** What a save of the two fields leaves: the object as the model's [save]
    made it, its two fields in the row. *)
Lemma save_instance pre_save s :
  instance (save pre_save ["is_closed"; "finish_date"] s)
  = pre_save (instance s).
Proof. done. Qed.

Lemma save_row_closing_fields pre_save s :
  story_is_closed (row (save pre_save ["is_closed"; "finish_date"] s))
  = story_is_closed (pre_save (instance s))
  ∧ story_finish_date (row (save pre_save ["is_closed"; "finish_date"] s))
    = story_finish_date (pre_save (instance s)).
Proof. done. Qed.

Lemma dated_keeps pre_save (f : Fields) :
  keeps_closing_fields pre_save → dated f → dated (pre_save f).
Proof.
  intros Hkeeps. unfold dated. by destruct (Hkeeps f) as [-> ->].
Qed.

(** X1. Closing a story that is already closed does nothing: no field is
    written, nothing is saved, and the finish date stays the time of the
    first closing; reopening an open story does nothing either. So, with a
    model's [save] that leaves [is_closed] as the functions set it, closing
    twice is closing once and reopening twice is reopening once. *)
Theorem close_open_userstory_idempotent pre_save (now1 now2 : Z) s :
  (story_is_closed (instance s) = true → close_userstory pre_save now1 s = s)
  ∧ (story_is_closed (instance s) = false → open_userstory pre_save s = s)
  ∧ ((∀ f, story_is_closed (pre_save f) = story_is_closed f) →
     close_userstory pre_save now2 (close_userstory pre_save now1 s)
     = close_userstory pre_save now1 s
     ∧ open_userstory pre_save (open_userstory pre_save s)
       = open_userstory pre_save s).
Proof.
  unfold close_userstory, open_userstory. split_and!.
  - by intros ->.
  - by intros ->.
  - intros Hkeeps.
    destruct (story_is_closed (instance s)) eqn:Hclosed; cbn [negb].
    + rewrite Hclosed. cbn [negb]. split; [done |].
      by rewrite save_instance, Hkeeps.
    + rewrite Hclosed. split; [| done].
      by rewrite save_instance, Hkeeps.
Qed.

(** X2. With a model's [save] that does not assign the two fields itself:
    closing an open story and reopening it leaves the object and the row
    open and without finish date again; it took two saves, each of the two
    fields only. The other fields of the object are what the model's [save]
    made of them in the two calls, so the object is as it was when that
    [save] assigns nothing. *)
Theorem open_close_userstory_round_trip pre_save (now : Z) s :
  keeps_closing_fields pre_save →
  story_is_closed (instance s) = false →
  let s' := open_userstory pre_save (close_userstory pre_save now s) in
  story_is_closed (instance s') = false
  ∧ story_finish_date (instance s') = None
  ∧ story_is_closed (row s') = false
  ∧ story_finish_date (row s') = None
  ∧ saves s'
    = ["is_closed"; "finish_date"] :: ["is_closed"; "finish_date"] :: saves s
  ∧ story_other (instance s')
    = story_other
        (pre_save
           (mkFields false None
              (story_other
                 (pre_save
                    (mkFields true (Some now) (story_other (instance s)))))))
  ∧ ((∀ f, pre_save f = f) →
     story_finish_date (instance s) = None → instance s' = instance s).
Proof.
  intros Hkeeps Hopen. cbv zeta.
  unfold close_userstory. rewrite Hopen. cbn [negb].
  set (closed := save pre_save ["is_closed"; "finish_date"]
                   (mkSession
                      (mkFields true (Some now) (story_other (instance s)))
                      (row s) (saves s))).
  assert (story_is_closed (instance closed) = true) as Hclosed.
  { unfold closed. rewrite save_instance. cbn [instance].
    by destruct (Hkeeps (mkFields true (Some now)
                           (story_other (instance s)))) as [-> _]. }
  unfold open_userstory. rewrite Hclosed.
  set (us := mkFields false None (story_other (instance closed))).
  destruct (Hkeeps us) as [Hk1 Hk2].
  split_and!.
  - rewrite save_instance. cbn [instance]. by rewrite Hk1.
  - rewrite save_instance. cbn [instance]. by rewrite Hk2.
  - rewrite (proj1 (save_row_closing_fields _ _)). cbn [instance].
    by rewrite Hk1.
  - rewrite (proj2 (save_row_closing_fields _ _)). cbn [instance].
    by rewrite Hk2.
  - done.
  - done.
  - intros Hid Hdate. rewrite save_instance. cbn [instance].
    rewrite Hid. unfold us, closed. rewrite save_instance. cbn [instance].
    rewrite Hid. cbn [story_other].
    destruct (instance s) as [c d o]. simpl in *. by subst.
Qed.

(** X3. With a model's [save] that does not assign the two fields itself,
    both functions keep "closed exactly when there is a finish date": if it
    holds of the object and of the row before the call, it holds of both
    after it. *)
Theorem close_open_userstory_dated pre_save (now : Z) s :
  keeps_closing_fields pre_save →
  dated (instance s) → dated (row s) →
  (dated (instance (close_userstory pre_save now s))
   ∧ dated (row (close_userstory pre_save now s)))
  ∧ (dated (instance (open_userstory pre_save s))
     ∧ dated (row (open_userstory pre_save s))).
Proof.
  intros Hkeeps Hi Hr. unfold close_userstory, open_userstory.
  assert (dated (mkFields true (Some now) (story_other (instance s))))
    as Hclosed by (by split; [eexists | ]).
  assert (dated (mkFields false None (story_other (instance s))))
    as Hopen by (split; [done | by intros [? [=]]]).
  apply (dated_keeps pre_save) in Hclosed, Hopen; [| done ..].
  destruct (story_is_closed (instance s)) eqn:Hc; cbn [negb].
  - split; [done |]. by split.
  - split; [| done]. by split.
Qed.

(** X4. Neither function writes a column other than [is_closed] and
    [finish_date]: the other columns of the row keep what the row held, also
    when the object differs from the row there (an edit that was not saved
    stays unsaved) and whatever the model's [save] assigns on the object.
    When that [save] assigns nothing, the other fields of the object are
    left alone too. *)
Theorem close_open_userstory_other_fields pre_save (now : Z) s :
  keeps_other_fields pre_save →
  other_fields (instance s) → other_fields (row s) →
  story_other (row (close_userstory pre_save now s)) = story_other (row s)
  ∧ story_other (row (open_userstory pre_save s)) = story_other (row s)
  ∧ ((∀ f, pre_save f = f) →
     story_other (instance (close_userstory pre_save now s))
     = story_other (instance s)
     ∧ story_other (instance (open_userstory pre_save s))
       = story_other (instance s)).
Proof.
  intros Hkeeps Hi Hr. unfold close_userstory, open_userstory.
  assert (∀ f, other_fields f →
            story_other
              (row (save pre_save ["is_closed"; "finish_date"]
                      (mkSession f (row s) (saves s))))
            = story_other (row s)) as Hrow.
  { intros f Hf. unfold save.
    rewrite model_save_is_closed_finish_date; [done | done |].
    by apply Hkeeps. }
  split_and!.
  - destruct (story_is_closed (instance s)); cbn [negb]; [done |].
    by apply Hrow.
  - destruct (story_is_closed (instance s)); [| done]. by apply Hrow.
  - intros Hid.
    destruct (story_is_closed (instance s)); cbn [negb];
      rewrite ?save_instance, ?Hid; by split.
Qed.

End lifecycle.

(** ** [calculate_userstory_is_closed], beyond the story without status *)

Lemma comprehension_statuses (l : list TaskObj) :
  Forall (λ task, is_Some (task_status task)) l →
  comprehension (λ task, getattr_is_closed (task_status task)) l
  = inr ((λ task, from_option is_closed false (task_status task)) <$> l).
Proof.
  induction 1 as [| task l [st Hst] Hl IH]; [done |].
  simpl. rewrite Hst, IH. done.
Qed.

Lemma comprehension_no_status (l : list TaskObj) :
  Exists (λ task, task_status task = None) l →
  comprehension (λ task, getattr_is_closed (task_status task)) l
  = inl (AttributeError "is_closed").
Proof.
  induction 1 as [task l Hnone | task l Hl IH]; simpl.
  - by rewrite Hnone.
  - destruct (task_status task); simpl; [| done]. by rewrite IH.
Qed.

Lemma all_true (l : list bool) : all l = true ↔ Forall (λ b, b = true) l.
Proof.
  unfold all. induction l as [| b l IH]; simpl.
  - split; [by constructor | done].
  - rewrite andb_true_iff, IH, Forall_cons. by destruct b.
Qed.

(** X5. For a story that has a status and whose tasks all have one: without
    tasks the story is closed exactly when its own status is a closed one;
    with tasks it is closed exactly when every task is in a closed status,
    whatever the story's own status says. *)
Theorem calculate_userstory_is_closed_value (user_story : UserStoryObj)
    (st : StatusObj) :
  status user_story = Some st →
  Forall (λ task, is_Some (task_status task)) (tasks user_story) →
  (tasks user_story = [] →
   calculate_userstory_is_closed user_story = inr (is_closed st))
  ∧ (tasks user_story ≠ [] →
     ∃ closed,
       calculate_userstory_is_closed user_story = inr closed
       ∧ (closed = true ↔
          Forall (λ task, ∃ s, task_status task = Some s ∧ is_closed s = true)
                 (tasks user_story))).
Proof.
  intros Hst Hall. unfold calculate_userstory_is_closed. rewrite Hst. split.
  - by intros ->.
  - intros Hne. rewrite bool_decide_false
      by (by destruct (tasks user_story)).
    rewrite comprehension_statuses by done. simpl.
    exists (all ((λ task, from_option is_closed false (task_status task))
                 <$> tasks user_story)).
    split; [by destruct (all _) |].
    rewrite all_true, Forall_fmap. apply Forall_iff. intros task. simpl.
    destruct (task_status task) as [s |]; simpl.
    + split; [by exists s | by intros (? & [= <-] & ?)].
    + split; [done | by intros (? & [=] & _)].
Qed.

Lemma calculate_userstory_is_closed_value_witness :
  let user_story :=
    mkUserStoryObj (Some (mkStatusObj false))
      [mkTaskObj (Some (mkStatusObj true));
       mkTaskObj (Some (mkStatusObj true))] in
  ∃ closed,
    calculate_userstory_is_closed user_story = inr closed
    ∧ (closed = true ↔
       Forall (λ task, ∃ s, task_status task = Some s ∧ is_closed s = true)
              (tasks user_story)).
Proof.
  apply (calculate_userstory_is_closed_value
           (mkUserStoryObj (Some (mkStatusObj false))
              [mkTaskObj (Some (mkStatusObj true));
               mkTaskObj (Some (mkStatusObj true))])
           (mkStatusObj false)); [reflexivity | | discriminate].
  simpl. repeat constructor; by eexists.
Defined.

(** X6. The function raises exactly when the story has a status, has tasks
    and one of the tasks has no status; what it raises is the
    [AttributeError] of [None.is_closed]. *)
Theorem calculate_userstory_is_closed_raises (user_story : UserStoryObj)
    (e : Exception) :
  calculate_userstory_is_closed user_story = inl e ↔
  is_Some (status user_story)
  ∧ tasks user_story ≠ []
  ∧ Exists (λ task, task_status task = None) (tasks user_story)
  ∧ e = AttributeError "is_closed".
Proof.
  unfold calculate_userstory_is_closed.
  destruct (status user_story) as [st |].
  2: { split; [discriminate | by intros [[? [=]] _]]. }
  case_bool_decide as Hlen.
  { split; [discriminate |]. intros (_ & Hne & _).
    by destruct (tasks user_story). }
  assert (tasks user_story ≠ []) as Hne by (by intros Heq; rewrite Heq in Hlen).
  destruct (decide (Exists (λ task, task_status task = None)
                      (tasks user_story))) as [Hex | Hnex].
  - rewrite comprehension_no_status by done. simpl. split.
    + intros [= <-]. by split_and!.
    + by intros (_ & _ & _ & ->).
  - rewrite comprehension_statuses. 2: {
      apply Forall_forall. intros task Htask.
      destruct (task_status task) eqn:Hs; [by eexists |].
      destruct Hnex. apply Exists_exists. by exists task. }
    simpl. split; [by destruct (all _) | by intros (_ & _ & ? & _)].
Qed.

(** ** [Task.save] *)

Section task_save.
Import builtins tasks_models.

Lemma save_status (now : Z) (t : Task) :
  t_status (save now t)
  = match t_status t with
    | Some st => Some st
    | None => default_task_status t
    end.
Proof.
  unfold save. destruct t as [importing [date |] [st |] default]; simpl;
    by destruct (truthy importing).
Qed.

Lemma save_default_task_status (now : Z) (t : Task) :
  default_task_status (save now t) = default_task_status t.
Proof.
  unfold save. destruct t as [importing [date |] [st |] default]; simpl;
    by destruct (truthy importing).
Qed.

Lemma save_importing (now : Z) (t : Task) :
  _importing (save now t) = _importing t.
Proof.
  unfold save. destruct t as [importing [date |] [st |] default]; simpl;
    by destruct (truthy importing).
Qed.

Lemma save_modified_date (now : Z) (t : Task) :
  modified_date (save now t)
  = match modified_date t with
    | Some date => if truthy (_importing t) then Some date else Some now
    | None => Some now
    end.
Proof.
  unfold save. destruct t as [importing [date |] [st |] default]; simpl;
    by destruct (truthy importing).
Qed.

(** X7. Saving a task: a missing status is filled in from the project's
    default task status, a status that is there is never replaced, and the
    task has a modification date afterwards. Saving it again: the status the
    first save left is kept, and the modification date becomes the time of
    the second save, unless the task is being imported ([_importing] true),
    in which case the date the first save left is kept. *)
Theorem task_save_twice (now1 now2 : Z) (t : Task) :
  (t_status t = None → t_status (save now1 t) = default_task_status t)
  ∧ (is_Some (t_status t) → t_status (save now1 t) = t_status t)
  ∧ t_status (save now2 (save now1 t)) = t_status (save now1 t)
  ∧ modified_date (save now1 t)
    = (if truthy (_importing t) && bool_decide (is_Some (modified_date t))
       then modified_date t else Some now1)
  ∧ is_Some (modified_date (save now1 t))
  ∧ modified_date (save now2 (save now1 t))
    = if truthy (_importing t) then modified_date (save now1 t)
      else Some now2.
Proof.
  split_and!.
  - intros Hnone. by rewrite save_status, Hnone.
  - intros [st Hst]. by rewrite save_status, Hst.
  - rewrite !save_status, save_default_task_status.
    by destruct (t_status t), (default_task_status t).
  - rewrite save_modified_date.
    by destruct (modified_date t), (truthy (_importing t)).
  - rewrite save_modified_date.
    destruct (modified_date t), (truthy (_importing t)); by eexists.
  - rewrite !save_modified_date, save_importing.
    by destruct (modified_date t), (truthy (_importing t)).
Qed.

(** X8. A story whose tasks were all saved in projects that have a default
    task status: [calculate_userstory_is_closed] raises nothing on it, also
    when tasks were created without status. *)
Theorem calculate_userstory_is_closed_saved_tasks (now : Z)
    (st : option StatusObj) (ts : list Task) :
  Forall (λ t, is_Some (default_task_status t)) ts →
  ∃ closed,
    calculate_userstory_is_closed
      (mkUserStoryObj st (as_related ∘ save now <$> ts)) = inr closed.
Proof.
  intros Hdefault. unfold calculate_userstory_is_closed. simpl.
  destruct st as [st |]; [| by eexists].
  case_bool_decide; [by eexists |].
  rewrite comprehension_statuses.
  - simpl. destruct (all _); by eexists.
  - apply Forall_fmap. eapply Forall_impl; [exact Hdefault |].
    intros t [d Hd]. simpl. rewrite save_status, Hd.
    by destruct (t_status t).
Qed.

End task_save.

Lemma calculate_userstory_is_closed_saved_tasks_witness :
  ∃ closed,
    calculate_userstory_is_closed
      (mkUserStoryObj (Some (mkStatusObj true))
         (tasks_models.as_related ∘ tasks_models.save 1414668720
          <$> [tasks_models.mkTask decorators.PyNone None None
                 (Some (mkStatusObj false))])) = inr closed.
Proof.
  apply (calculate_userstory_is_closed_saved_tasks 1414668720).
  repeat constructor. by eexists.
Defined.

(** ** The bulk operations *)

Section bulk.
Import bulk.
Implicit Types (others : Collaborators) (bulk_data : list (gmap string Z)).

Lemma order_loop_KeyError field bulk_data ids values :
  Exists (λ us_data, us_data !! "us_id" = None ∨ us_data !! "order" = None)
         bulk_data →
  ∃ key, order_loop field bulk_data ids values = inl (KeyError key)
         ∧ (key = "us_id" ∨ key = "order").
Proof.
  intros Hbad. revert ids values.
  induction Hbad as [us_data bulk_data Hbad | us_data bulk_data Hbad IH];
    intros ids values; simpl; unfold getitem.
  - destruct (us_data !! "us_id") as [us_id |] eqn:Hid; simpl.
    + destruct Hbad as [[=] | ->]. simpl. eauto.
    + eauto.
  - destruct (us_data !! "us_id") as [us_id |]; simpl; [| eauto].
    destruct (us_data !! "order") as [order |]; simpl; [| eauto].
    apply IH.
Qed.

Lemma order_loop_complete field bulk_data ids values :
  Forall (λ us_data, is_Some (us_data !! "us_id")
                     ∧ is_Some (us_data !! "order")) bulk_data →
  order_loop field bulk_data ids values
  = inr (ids ++ ((λ us_data, us_data !!! "us_id") <$> bulk_data),
         values
         ++ ((λ us_data, {[field := us_data !!! "order"]}) <$> bulk_data)).
Proof.
  intros Hall. revert ids values.
  induction Hall as [| us_data bulk_data [[us_id Hid] [order Horder]] _ IH];
    intros ids values; simpl.
  - by rewrite !app_nil_r.
  - unfold getitem. rewrite Hid, Horder. simpl. rewrite IH.
    rewrite <- !app_assoc. simpl.
    by rewrite !(lookup_total_correct _ _ _ Hid),
               !(lookup_total_correct _ _ _ Horder).
Qed.

(** X9. When an entry of [bulk_data] lacks ["us_id"] or ["order"], the
    function raises [KeyError] for such a key before it calls anything: no
    event is emitted and no story is updated, not even those of the entries
    before the bad one. *)
Theorem update_userstories_order_in_bulk_KeyError others bulk_data
    (field : string) (project : Project) :
  Exists (λ us_data, us_data !! "us_id" = None ∨ us_data !! "order" = None)
         bulk_data →
  ∃ key,
    update_userstories_order_in_bulk others bulk_data field project
    = ([], inl (Python (KeyError key)))
    ∧ (key = "us_id" ∨ key = "order").
Proof.
  intros Hbad. unfold update_userstories_order_in_bulk.
  destruct (order_loop_KeyError field bulk_data [] [] Hbad)
    as (key & -> & Hkey).
  by exists key.
Qed.

(** X10. When every entry has both keys, the function emits one event for
    the ids of the entries, in their order, and then makes one update call
    with the same ids and, position by position, the value [{field: order}]
    of the same entry (also for an empty [bulk_data]); the update is not
    called when emitting the event raises. *)
Theorem update_userstories_order_in_bulk_calls others bulk_data
    (field : string) (project : Project) :
  Forall (λ us_data, is_Some (us_data !! "us_id")
                     ∧ is_Some (us_data !! "order")) bulk_data →
  let ids := (λ us_data, us_data !!! "us_id") <$> bulk_data in
  let values :=
    (λ us_data, {[field := us_data !!! "order"]}) <$> bulk_data in
  let emit :=
    emit_event_for_ids ids "userstories.userstory" (project_id project) in
  let update := update_in_bulk_with_ids ids values "UserStory" in
  length ids = length bulk_data
  ∧ length values = length bulk_data
  ∧ update_userstories_order_in_bulk others bulk_data field project
    = match others emit with
      | Some e => ([emit], inl e)
      | None =>
          match others update with
          | Some e => ([emit; update], inl e)
          | None => ([emit; update], inr ())
          end
      end.
Proof.
  intros Hall. cbv zeta. rewrite !length_fmap. split_and!; [done .. |].
  unfold update_userstories_order_in_bulk.
  by rewrite order_loop_complete.
Qed.

(** With a table keyed by [id], the lookup finds the story with the id or
    raises [UserStory.DoesNotExist]. *)
Lemma objects_get_key (db : Database) (pk : Z) :
  NoDup (us_id <$> userstories_userstory db) →
  objects_get db pk
  = match filter (λ us, us_id us = pk) (userstories_userstory db) with
    | us :: _ => inr us
    | [] => inl (DoesNotExist "UserStory")
    end
  ∧ (length (filter (λ us, us_id us = pk) (userstories_userstory db))
     ≤ 1)%nat.
Proof.
  intros Hkey. unfold objects_get.
  assert (NoDup (us_id <$> filter (λ us, us_id us = pk)
                             (userstories_userstory db))) as Hnodup.
  { refine (sublist_NoDup _ _ Hkey _). apply fmap_sublist, sublist_filter. }
  assert (Forall (λ us, us_id us = pk)
            (filter (λ us, us_id us = pk) (userstories_userstory db)))
    as Hall.
  { apply Forall_forall. by intros us [? _]%list_elem_of_filter. }
  destruct (filter _ (userstories_userstory db)) as [| us [| us' l]];
    [split; simpl; (done || lia) .. |].
  apply Forall_cons in Hall as [Hus [Hus' _]%Forall_cons].
  rewrite !fmap_cons, Hus, Hus' in Hnodup.
  apply NoDup_cons in Hnodup as [Hin _]. destruct Hin. left.
Qed.

Lemma snapshot_loop_existing others (db : Database) (user : Z) bulk_data
    (calls : list Call) :
  NoDup (us_id <$> userstories_userstory db) →
  (∀ us, others (take_snapshot us user) = None) →
  Forall (λ us_data, is_Some (us_data !! "us_id")) bulk_data →
  snapshot_loop others db user bulk_data calls
  = (calls ++ ((λ us, take_snapshot us user) <$> existing db bulk_data),
     inr ()).
Proof.
  intros Hkey Hothers Hall. revert calls.
  induction Hall as [| us_data bulk_data [pk Hpk] _ IH]; intros calls.
  { simpl. by rewrite app_nil_r. }
  cbn [snapshot_loop]. unfold getitem, ret. rewrite Hpk. cbn beta iota.
  unfold existing. rewrite bind_cons. fold (existing db bulk_data).
  destruct (objects_get_key db pk Hkey) as [-> Hlen].
  rewrite (list_filter_iff (λ us, Some (us_id us) = us_data !! "us_id")
                           (λ us, us_id us = pk))
    by (intros us; rewrite Hpk; split; congruence).
  destruct (filter (λ us, us_id us = pk) (userstories_userstory db))
    as [| us l].
  - apply IH.
  - destruct l; [| simpl in Hlen; lia].
    rewrite Hothers, IH, fmap_app. by rewrite <- app_assoc.
Qed.

Lemma snapshot_loop_app others (db : Database) (user : Z)
    bulk_data1 bulk_data2 (calls : list Call) :
  snapshot_loop others db user (bulk_data1 ++ bulk_data2) calls
  = match snapshot_loop others db user bulk_data1 calls with
    | (calls', inr _) => snapshot_loop others db user bulk_data2 calls'
    | (calls', inl e) => (calls', inl e)
    end.
Proof.
  revert calls. induction bulk_data1 as [| us_data bulk_data1 IH];
    intros calls; simpl; [done |].
  destruct (getitem us_data "us_id") as [e | pk]; [done |].
  destruct (objects_get db pk) as [e | us].
  - destruct (caught e); [apply IH | done].
  - destruct (others (take_snapshot us user)) as [e |]; [| apply IH].
    destruct (caught e); [apply IH | done].
Qed.

(** X11. Over a table keyed by [id], when every entry has its ["us_id"] and
    [take_snapshot] raises nothing: a snapshot is taken of every story named
    by an entry that exists, in the order of the entries, entries naming no
    story are passed over, and the function returns. *)
Theorem snapshot_userstories_in_bulk_existing others (db : Database)
    bulk_data (user : Z) :
  NoDup (us_id <$> userstories_userstory db) →
  (∀ us, others (take_snapshot us user) = None) →
  Forall (λ us_data, is_Some (us_data !! "us_id")) bulk_data →
  snapshot_userstories_in_bulk others db bulk_data user
  = ((λ us, take_snapshot us user) <$> existing db bulk_data, inr ()).
Proof.
  intros Hkey Hothers Hall. unfold snapshot_userstories_in_bulk.
  by rewrite snapshot_loop_existing.
Qed.

(** X12. An entry without ["us_id"] ends the function with [KeyError] (the
    [except] clause catches [DoesNotExist] only), after the snapshots of the
    entries before it were taken and without looking at the entries after
    it. *)
Theorem snapshot_userstories_in_bulk_KeyError others (db : Database)
    (before after : list (gmap string Z)) (us_data : gmap string Z)
    (user : Z) :
  NoDup (us_id <$> userstories_userstory db) →
  (∀ us, others (take_snapshot us user) = None) →
  Forall (λ us_data, is_Some (us_data !! "us_id")) before →
  us_data !! "us_id" = None →
  snapshot_userstories_in_bulk others db (before ++ us_data :: after) user
  = ((λ us, take_snapshot us user) <$> existing db before,
     inl (Python (KeyError "us_id"))).
Proof.
  intros Hkey Hothers Hall Hnone. unfold snapshot_userstories_in_bulk.
  rewrite snapshot_loop_app, snapshot_loop_existing by done.
  simpl. unfold getitem. by rewrite Hnone.
Qed.

End bulk.

(** ** The route decorators *)

Section routes.
Import routes.
Implicit Types (func : Func) (kwargs : gmap string PyValue).

Lemma decorator_decorator methods1 detail1 kwargs1 methods2 detail2 kwargs2
    func :
  decorator methods2 detail2 kwargs2 (decorator methods1 detail1 kwargs1 func)
  = decorator methods2 detail2 kwargs2 func.
Proof.
  unfold decorator, set_attr. simpl. f_equal.
  apply map_eq. intros name. rewrite !lookup_insert.
  by repeat case_decide.
Qed.

Lemma decorator_other methods detail kwargs func (name : string) :
  name ∉ route_attrs →
  func_dict (decorator methods detail kwargs func) !! name
  = func_dict func !! name.
Proof.
  intros Hname. unfold decorator, set_attr. simpl.
  rewrite !lookup_insert_ne; [done | | |];
    intros <-; apply Hname; unfold route_attrs; set_solver.
Qed.

(** X13. Stacked route decorators do not add up: whichever of
    [detail_route] and [list_route] is applied last (the outermost [@])
    decides the methods, the detail flag and the kwargs alone, as if the
    inner decorator had not been there. *)
Theorem route_decorators_last_wins (methods1 methods2 : option (list string))
    kwargs1 kwargs2 func :
  detail_route methods2 kwargs2 (detail_route methods1 kwargs1 func)
    = detail_route methods2 kwargs2 func
  ∧ detail_route methods2 kwargs2 (list_route methods1 kwargs1 func)
    = detail_route methods2 kwargs2 func
  ∧ list_route methods2 kwargs2 (detail_route methods1 kwargs1 func)
    = list_route methods2 kwargs2 func
  ∧ list_route methods2 kwargs2 (list_route methods1 kwargs1 func)
    = list_route methods2 kwargs2 func.
Proof.
  unfold detail_route, list_route. split_and!; apply decorator_decorator.
Qed.

(** X14. The route decorators return the function they were given, with
    [bind_to_methods], [detail] and [kwargs] set as asked ([get] when no
    methods are given) and every other attribute of the function as it
    was. *)
Theorem route_decorators_attributes (methods : option (list string)) kwargs
    func :
  let routed := detail_route methods kwargs func in
  let listed := list_route methods kwargs func in
  (func_name routed = func_name func
   ∧ func_dict routed !! "bind_to_methods"
     = Some (Methods (default ["get"] methods))
   ∧ func_dict routed !! "detail" = Some (Flag true)
   ∧ func_dict routed !! "kwargs" = Some (Kwargs kwargs)
   ∧ ∀ name, name ∉ route_attrs →
             func_dict routed !! name = func_dict func !! name)
  ∧ (func_name listed = func_name func
     ∧ func_dict listed !! "bind_to_methods"
       = Some (Methods (default ["get"] methods))
     ∧ func_dict listed !! "detail" = Some (Flag false)
     ∧ func_dict listed !! "kwargs" = Some (Kwargs kwargs)
     ∧ ∀ name, name ∉ route_attrs →
               func_dict listed !! name = func_dict func !! name).
Proof.
  cbv zeta. unfold detail_route, list_route.
  split; (split_and!; [done | | | | intros name; apply decorator_other]);
    unfold decorator, set_attr; simpl; rewrite !lookup_insert;
    by repeat case_decide.
Qed.

(** X15. The deprecated decorators are detail routes: [link( **kwargs)]
    decorates as [detail_route(methods=['get'], **kwargs)] does (it cannot
    be given methods), [action(methods, **kwargs)] as
    [detail_route(methods, **kwargs)] does except that it defaults to
    [post]; each issues exactly one [PendingDeprecationWarning] when it is
    evaluated, after the warnings already issued. *)
Theorem link_action_are_detail_routes (methods : list string) kwargs
    (warnings : list Warning) func :
  (link kwargs warnings).2 func = detail_route (Some ["get"]) kwargs func
  ∧ (action (Some methods) kwargs warnings).2 func
    = detail_route (Some methods) kwargs func
  ∧ (action None kwargs warnings).2 func
    = detail_route (Some ["post"]) kwargs func
  ∧ (∃ msg, (link kwargs warnings).1
            = warnings ++ [mkWarning msg "PendingDeprecationWarning"])
  ∧ (∃ msg, (action (Some methods) kwargs warnings).1
            = warnings ++ [mkWarning msg "PendingDeprecationWarning"]).
Proof. split_and!; try done; by eexists. Qed.

End routes.

(** ** Totals of the facets *)

Section totals.
Import services.
Implicit Types (c : Connection) (project : Project) (qs : Queryset).

(** The rows of the assignees statement, turned into dicts and sorted, are
    the "unassigned" record and the records of the project's members, in
    some order. *)
Lemma assigned_to_facet_Permutation c project qs :
  NoDup (user_id <$> users_user (database c)) →
  sorted p_full_name String.le
    (assigned_to_dict
     <$> assigned_to_rows (database c)
           (holds (query_where qs) (query_params qs))
           (holds (query_where qs) (query_params qs))
           (project_id project))
  ≡ₚ unassigned_record (filtered_collection (database c) qs)
     :: (assignee_record (filtered_collection (database c) qs)
         <$> project_members (database c) project).
Proof.
  intros Hpk.
  set (items := filtered_collection (database c) qs).
  assert (NoDup (user_id <$> project_members (database c) project)) as Hmembers.
  { unfold project_members.
    refine (sublist_NoDup _ _ Hpk _).
    apply fmap_sublist, sublist_filter. }
  assert (NoDup (p_id <$> unassigned_record items
                  :: (assignee_record items
                      <$> project_members (database c) project))) as Hids.
  { rewrite fmap_cons. apply NoDup_cons. split.
    - rewrite <- list_fmap_compose. simpl.
      by intros (u & [=] & _)%list_elem_of_fmap.
    - rewrite <- list_fmap_compose.
      change (p_id ∘ assignee_record items) with (Some ∘ user_id).
      rewrite list_fmap_compose. by apply (NoDup_fmap_2 Some). }
  rewrite sorted_Permutation. unfold assigned_to_rows, sql_union.
    apply NoDup_Permutation.
    - apply NoDup_fmap_2_strong; [| apply NoDup_remove_dups].
      intros x y Hx Hy. rewrite elem_of_remove_dups in Hx, Hy.
      simpl in Hx, Hy. apply elem_of_cons in Hx, Hy.
      destruct Hx as [-> | Hx], Hy as [-> | Hy].
      + done.
      + apply (elem_of_assigned_to_members _ _ _ project) in Hy
          as (u & _ & ->); [| done]. by intros [=].
      + apply (elem_of_assigned_to_members _ _ _ project) in Hx
          as (u & _ & ->); [| done]. by intros [=].
      + apply (elem_of_assigned_to_members _ _ _ project) in Hx
          as (u & _ & ->); [| done].
        apply (elem_of_assigned_to_members _ _ _ project) in Hy
          as (u' & _ & ->); [| done].
        unfold assigned_to_dict. rewrite !or_empty_Some.
        intros [= Hid Hname _]. by rewrite Hid, Hname.
    - by apply NoDup_fmap_1 in Hids.
    - intros r. rewrite list_elem_of_fmap. setoid_rewrite elem_of_remove_dups.
      simpl. setoid_rewrite elem_of_cons. split.
      + intros (row & -> & [-> | Hrow]).
        * left. unfold unassigned_record. simpl. f_equal.
          apply select_count_collection. intros us. apply is_null_true.
        * apply (elem_of_assigned_to_members _ _ _ project) in Hrow
            as (u & Hu & ->); [| done].
          right. apply list_elem_of_fmap. exists u. split; [| done].
          unfold assigned_to_dict. by rewrite or_empty_Some.
      + intros [-> | (u & -> & Hu)%list_elem_of_fmap].
        * eexists. split; [| by left]. unfold unassigned_record. simpl.
          f_equal. symmetry. apply select_count_collection.
          intros us. apply is_null_true.
        * exists (Some (user_id u), Some (user_full_name u),
                  number_of (λ us, us_assigned_to_id us = Some (user_id u))
                    items).
          split; [unfold assigned_to_dict; by rewrite or_empty_Some |].
          right. apply (elem_of_assigned_to_members _ _ _ project); [done |].
          by exists u.
Qed.

Lemma sum_list_with_fmap {A B} (f : B → nat) (g : A → B) (l : list A) :
  sum_list_with f (g <$> l) = sum_list_with (f ∘ g) l.
Proof. induction l as [| x l IH]; csimpl; [done |]. by rewrite IH. Qed.

Lemma sum_list_with_cons {A} (f : A → nat) (x : A) (l : list A) :
  sum_list_with f (x :: l) = (f x + sum_list_with f l)%nat.
Proof. done. Qed.

Lemma sum_list_with_ext {A} (f g : A → nat) (l : list A) :
  (∀ x, x ∈ l → f x = g x) → sum_list_with f l = sum_list_with g l.
Proof.
  induction l as [| x l IH]; intros Hfg; simpl; [done |].
  rewrite Hfg by left. rewrite IH; [done |].
  intros y Hy. apply Hfg. by right.
Qed.

Lemma number_of_or {A} (P Q : A → Prop) `{∀ x, Decision (P x)}
    `{∀ x, Decision (Q x)} (l : list A) :
  (∀ x, P x → Q x → False) →
  number_of (λ x, P x ∨ Q x) l = (number_of P l + number_of Q l)%nat.
Proof.
  intros Hdisjoint. unfold number_of.
  induction l as [| x l IH]; [done |].
  rewrite !filter_cons.
  destruct (decide (P x)) as [HP | HP], (decide (Q x)) as [HQ | HQ].
  - destruct (Hdisjoint x HP HQ).
  - rewrite decide_True by (by left). simpl. by rewrite IH.
  - rewrite decide_True by (by right). simpl. rewrite IH. lia.
  - rewrite decide_False by (by intros [? | ?]). done.
Qed.

Lemma filter_everything {A} (P : A → Prop) `{∀ x, Decision (P x)}
    (l : list A) :
  (∀ x, x ∈ l → P x) → filter P l = l.
Proof.
  induction l as [| x l IH]; intros HP; [done |].
  rewrite filter_cons_True by (apply HP; left).
  rewrite IH; [done |]. intros y Hy. apply HP. by right.
Qed.

(** Counting per key and adding up, over keys that are all different, is
    counting the items whose key is one of them. *)
Lemma sum_number_of {A K} `{EqDecision K} (key : A → K) (ks : list K)
    (items : list A) :
  NoDup ks →
  sum_list_with (λ k, number_of (λ x, key x = k) items) ks
  = number_of (λ x, key x ∈ ks) items.
Proof.
  induction 1 as [| k ks Hk Hks IH]; simpl.
  - unfold number_of. rewrite filter_nothing; [done |].
    intros x _. apply not_elem_of_nil.
  - rewrite IH, <- number_of_or by (by intros x -> ?).
    unfold number_of. f_equal. apply list_filter_iff.
    intros x. rewrite elem_of_cons. done.
Qed.

(** X16. The counts of the tags facet add up to the number of tags on the
    items of the collection, repeated tags counted as often as they
    occur. *)
Theorem tags_facet_total c qs (facet : list TagFacet) :
  _get_userstories_tags c qs = inr facet →
  sum_list_with tag_count facet
  = length (flattened_tags (filtered_collection (database c) qs)).
Proof.
  rewrite _get_userstories_tags_run, outcome_inr.
  intros (_ & _ & ->). cbv zeta.
  set (tags := flattened_tags (filtered_collection (database c) qs)).
  rewrite sorted_Permutation, sum_list_with_fmap.
  trans (number_of (λ t, id t ∈ elements (list_to_set tags : gset string))
           tags).
  { exact (sum_number_of id _ tags (NoDup_elements _)). }
  unfold number_of. rewrite filter_everything; [done |].
  intros t Ht. by apply elem_of_elements, elem_of_list_to_set.
Qed.

(** X17. With [users_user.id] a key, the counts of the assignees facet add
    up to the number of items of the collection that are unassigned or
    assigned to a member of the project: an item assigned to somebody who
    is not a member is counted in no record, so the total can stay below
    the size of the collection. *)
Theorem assigned_to_facet_total c project qs (facet : list PersonFacet) :
  NoDup (user_id <$> users_user (database c)) →
  _get_userstories_assigned_to c project qs = inr facet →
  let items := filtered_collection (database c) qs in
  sum_list_with p_count facet
  = number_of
      (λ us, us_assigned_to_id us
             ∈ None :: (Some ∘ user_id <$> project_members (database c) project))
      items
  ∧ (sum_list_with p_count facet ≤ length items)%nat.
Proof.
  intros Hpk. rewrite _get_userstories_assigned_to_run, outcome_inr.
  intros (_ & _ & ->). cbv zeta.
  set (items := filtered_collection (database c) qs).
  rewrite (assigned_to_facet_Permutation c project qs Hpk).
  fold items.
  assert (sum_list_with p_count
            (unassigned_record items
             :: (assignee_record items
                 <$> project_members (database c) project))
          = number_of
              (λ us, us_assigned_to_id us
                     ∈ None :: (Some ∘ user_id
                                <$> project_members (database c) project))
              items) as ->.
  { rewrite <- (sum_number_of us_assigned_to_id).
    - rewrite !sum_list_with_cons, !sum_list_with_fmap. f_equal.
      unfold unassigned_record, number_of. simpl. f_equal.
      by apply list_filter_iff.
    - apply NoDup_cons. split.
      + intros (u & Hu & _)%list_elem_of_fmap. simpl in Hu. discriminate.
      + rewrite list_fmap_compose. apply (NoDup_fmap_2 Some).
        refine (sublist_NoDup _ _ Hpk _).
        apply fmap_sublist, sublist_filter. }
  split; [done |]. apply length_filter.
Qed.

(** X18. With [projects_userstorystatus.id] a key, the counts of the
    statuses facet add up to the number of items of the collection whose
    status is a status of the project: items without status, or in a status
    of another project, are counted in no record. *)
Theorem statuses_facet_total (ugettext : string → string) c project qs
    (facet : list StatusFacet) :
  NoDup (status_id <$> projects_userstorystatus (database c)) →
  _get_userstories_statuses ugettext c project qs = inr facet →
  let items := filtered_collection (database c) qs in
  sum_list_with st_count facet
  = number_of
      (λ us, us_status_id us
             ∈ (Some ∘ status_id <$> project_statuses (database c) project))
      items
  ∧ (sum_list_with st_count facet ≤ length items)%nat.
Proof.
  intros Hpk. rewrite _get_userstories_statuses_run, outcome_inr.
  intros (_ & _ & ->). cbv zeta.
  set (items := filtered_collection (database c) qs).
  rewrite (statuses_facet_Permutation ugettext c project qs). fold items.
  assert (sum_list_with st_count
            (status_record ugettext items
             <$> project_statuses (database c) project)
          = number_of
              (λ us, us_status_id us
                     ∈ (Some ∘ status_id
                        <$> project_statuses (database c) project))
              items) as ->.
  { rewrite <- (sum_number_of us_status_id).
    - by rewrite !sum_list_with_fmap.
    - rewrite list_fmap_compose. apply (NoDup_fmap_2 Some).
      refine (sublist_NoDup _ _ Hpk _).
      apply fmap_sublist, sublist_filter. }
  split; [done |]. apply length_filter.
Qed.

End totals.

(** ** How often a person is listed among the owners *)

Section owners_multiplicity.
Import services.
Implicit Types (c : Connection) (project : Project) (qs : Queryset).

Lemma number_of_app {A} (P : A → Prop) `{∀ x, Decision (P x)} (l k : list A) :
  number_of P (l ++ k) = (number_of P l + number_of P k)%nat.
Proof. unfold number_of. by rewrite filter_app, length_app. Qed.

Lemma number_of_Permutation {A} (P : A → Prop) `{∀ x, Decision (P x)}
    (l k : list A) :
  l ≡ₚ k → number_of P l = number_of P k.
Proof. intros Hlk. unfold number_of. by rewrite Hlk. Qed.

Lemma number_of_bind_nothing {A B} (P : B → Prop) `{∀ x, Decision (P x)}
    (h : A → list B) (l : list A) :
  (∀ b, b ∈ l → number_of P (h b) = 0%nat) →
  number_of P (l ≫= h) = 0%nat.
Proof.
  induction l as [| b l IH]; intros Hnothing; [done |].
  rewrite bind_cons, number_of_app, Hnothing by left.
  apply IH. intros b' Hb'. apply Hnothing. by right.
Qed.

(** Among the rows made for different keys, those made for one key. *)
Lemma number_of_bind_unique {A B} `{EqDecision A} (P : B → Prop)
    `{∀ x, Decision (P x)} (h : A → list B) (l : list A) (u : A) :
  NoDup l → u ∈ l →
  (∀ b, b ∈ l → b ≠ u → number_of P (h b) = 0%nat) →
  number_of P (l ≫= h) = number_of P (h u).
Proof.
  induction 1 as [| b l Hb Hl IH]; intros Hu Hother.
  { by apply elem_of_nil in Hu. }
  rewrite bind_cons, number_of_app.
  destruct (decide (b = u)) as [-> | Hne].
  - rewrite number_of_bind_nothing; [lia |].
    intros b Hin. apply Hother; [by right |]. by intros ->.
  - rewrite (Hother b) by (by left) || done.
    apply elem_of_cons in Hu as [-> | Hu]; [done |].
    apply IH; [done |].
    intros b' Hb' Hne'. apply Hother; [by right | done].
Qed.

(** The rows of the owners statement are made user by user: a user's
    membership rows, or one row of [NULL]s when there is none. *)
Lemma owners_rows_bind db (w : UserStory → Project → bool) (pid : Z) :
  omap owner_dict (owners_rows db w pid)
  = users_user db ≫= λ u,
      omap owner_dict
        ((λ r, (user_id r.2, user_full_name r.2,
                select_count db (λ us p,
                  w us p
                  && sql_eq (us_owner_id us) (r.1 ≫= membership_user_id))))
         <$> filter (λ r, sql_eq (membership_project_id <$> r.1) (Some pid)
                          && negb (is_null (r.1 ≫= membership_user_id))
                          || user_is_system r.2)
               (match filter (λ m, sql_eq (membership_user_id m)
                                     (Some (user_id u)))
                        (projects_membership db) with
                | [] => [(None, u)]
                | matches => (λ a, (Some a, u)) <$> matches
                end)).
Proof.
  unfold owners_rows, right_outer_join.
  induction (users_user db) as [| u l IH]; [done |].
  rewrite !bind_cons, filter_app, fmap_app, omap_app. by rewrite IH.
Qed.

(** The records made from the membership rows of one user. *)
Lemma owners_rows_of_user db qs (pid : Z) (u : User)
    (matches : list Membership) :
  Forall (λ m, membership_user_id m = Some (user_id u)) matches →
  omap owner_dict
    ((λ r, (user_id r.2, user_full_name r.2,
            select_count db (λ us p,
              holds (query_where qs) (query_params qs) us p
              && sql_eq (us_owner_id us) (r.1 ≫= membership_user_id))))
     <$> filter (λ r, sql_eq (membership_project_id <$> r.1) (Some pid)
                      && negb (is_null (r.1 ≫= membership_user_id))
                      || user_is_system r.2)
           ((λ a, (Some a, u)) <$> matches))
  = if decide (0 < p_count (owner_record (filtered_collection db qs) u))%nat
    then (λ _, owner_record (filtered_collection db qs) u)
         <$> filter (λ m, membership_project_id m = pid
                          ∨ user_is_system u = true) matches
    else [].
Proof.
  induction 1 as [| m matches Hm _ IH].
  { by case_decide. }
  rewrite fmap_cons, !filter_cons. csimpl. rewrite Hm. csimpl.
  rewrite andb_true_r.
  destruct (decide (membership_project_id m = pid ∨ user_is_system u = true))
    as [Hyes | Hno].
  - rewrite decide_True.
    2: { apply orb_True. destruct Hyes as [Hp | Hs]; [left | right].
         - by apply bool_decide_pack.
         - by apply Is_true_true. }
    rewrite fmap_cons. csimpl. rewrite Hm, IH.
    rewrite (select_count_collection _ _ _
               (λ us, us_owner_id us = Some (user_id u)))
      by (intros us; apply sql_eq_Some_r).
    unfold owner_dict. cbn [p_count owner_record].
    destruct (decide (0 < number_of _ _)%nat) as [Hpos | Hpos].
    + by rewrite bool_decide_true.
    + by rewrite bool_decide_false.
  - rewrite decide_False; [done |].
    intros [Hp | Hs]%orb_True; apply Hno; [left | right].
    + by apply bool_decide_unpack in Hp.
    + by apply Is_true_true.
Qed.

(** X19. With [users_user.id] a key: a user who owns no item of the
    collection has no record in the owners facet; a user who owns one has a
    record for every membership row of theirs that is in the project or, for
    a system account, in any project. So a member is listed once, a user
    without membership never, and a system account with memberships in
    several projects several times. *)
Theorem owners_facet_multiplicity c project qs (facet : list PersonFacet)
    (u : User) :
  NoDup (user_id <$> users_user (database c)) →
  u ∈ users_user (database c) →
  _get_userstories_owners c project qs = inr facet →
  number_of (λ r, p_id r = Some (user_id u)) facet
  = if decide (0 < number_of (λ us, us_owner_id us = Some (user_id u))
                     (filtered_collection (database c) qs))%nat
    then number_of
           (λ m, membership_user_id m = Some (user_id u)
                 ∧ (membership_project_id m = project_id project
                    ∨ user_is_system u = true))
           (projects_membership (database c))
    else 0%nat.
Proof.
  intros Hpk Hu. rewrite _get_userstories_owners_run, outcome_inr.
  intros (_ & _ & ->).
  rewrite (number_of_Permutation _ _ _ (sorted_Permutation _ _ _)).
  rewrite owners_rows_bind.
  rewrite (number_of_bind_unique _ _ _ u);
    [| by apply NoDup_fmap_1 in Hpk | done |].
  - destruct (filter (λ m, sql_eq (membership_user_id m) (Some (user_id u)))
                (projects_membership (database c))) as [| m l] eqn:Hmatches.
    + assert (number_of
                (λ m, membership_user_id m = Some (user_id u)
                      ∧ (membership_project_id m = project_id project
                         ∨ user_is_system u = true))
                (projects_membership (database c)) = 0%nat) as ->.
      { unfold number_of. rewrite filter_nothing; [done |].
        intros m Hm [Hid _].
        assert (m ∈ filter (λ m, sql_eq (membership_user_id m)
                                   (Some (user_id u)))
                      (projects_membership (database c))) as Hin.
        { apply list_elem_of_filter. split; [| done].
          by apply Is_true_true, sql_eq_Some_r. }
        rewrite Hmatches in Hin. by apply elem_of_nil in Hin. }
      rewrite filter_cons. simpl.
      destruct (user_is_system u); simpl.
      * rewrite select_count_null. simpl. by case_decide.
      * by case_decide.
    + rewrite <- Hmatches. rewrite owners_rows_of_user.
      2: { apply Forall_forall. intros m' [Hon _]%list_elem_of_filter.
           by apply Is_true_true, sql_eq_Some_r in Hon. }
      unfold owner_record at 1. simpl.
      case_decide as Hpos; [| done].
      unfold number_of at 1.
      rewrite filter_everything.
      2: { by intros r (m' & -> & _)%list_elem_of_fmap. }
      rewrite length_fmap, list_filter_filter.
      unfold number_of. f_equal. apply list_filter_iff. intros m'.
      rewrite <- (sql_eq_Some_r (membership_user_id m') (user_id u)).
      rewrite Is_true_true. tauto.
  - intros b Hb Hne. unfold number_of. rewrite filter_nothing; [done |].
    intros r Hr Hid. apply Hne.
    apply (NoDup_fmap_elem_of_inj user_id (users_user (database c)));
      [done .. |].
    apply list_elem_of_omap in Hr as ([[id name] count] & Hrow & Hdict).
    apply list_elem_of_fmap in Hrow as ([m' b'] & [= -> -> ->] & Hin).
    apply list_elem_of_filter in Hin as [_ Hin]. simpl in Hdict.
    assert (b' = b) as ->.
    { destruct (filter _ (projects_membership (database c))).
      - by apply list_elem_of_singleton in Hin as [= _ ->].
      - by apply list_elem_of_fmap in Hin as (? & [= _ ->] & _). }
    unfold owner_dict in Hdict. case_bool_decide; [| done].
    injection Hdict as <-. simpl in Hid. congruence.
Qed.

End owners_multiplicity.

(** ** [change_instance_attr]: exceptions, class attributes, nesting *)

Section change_instance_attr_more.
Import decorators.
Context {Args Ret : Type}.
Implicit Types (fn : Method Args Ret) (instance : Instance).

Lemma setattr_setattr instance name v1 v2 :
  __setattr__ (__setattr__ instance name v1) name v2
  = __setattr__ instance name v2.
Proof. unfold __setattr__. simpl. by rewrite insert_insert_eq. Qed.

Lemma setattr_commute instance n1 n2 v1 v2 :
  n1 ≠ n2 →
  __setattr__ (__setattr__ instance n1 v1) n2 v2
  = __setattr__ (__setattr__ instance n2 v2) n1 v1.
Proof.
  intros Hne. unfold __setattr__. simpl. f_equal.
  by apply insert_insert_ne.
Qed.

(** X20. The attribute is not put back when the wrapped function raises:
    on an instance that has the attribute, with a wrapped function that does
    not write the attribute itself, an exception reaches the caller as the
    wrapped function raised it, and the attribute is left at the temporary
    value. *)
Theorem change_instance_attr_raise_not_restored name new_value fn instance
    args old_value instance' e :
  (∀ i a, inst_dict (fn i a).1 !! name = inst_dict i !! name) →
  __getattribute__ instance name = inr old_value →
  change_instance_attr name new_value fn instance args = (instance', inl e) →
  fn (__setattr__ instance name new_value) args = (instance', inl e)
  ∧ __getattribute__ instance' name = inr new_value.
Proof.
  intros Hframe Hold Hcall.
  rewrite (change_instance_attr_present _ _ _ _ _ _ Hold) in Hcall.
  specialize (Hframe (__setattr__ instance name new_value) args).
  destruct (fn (__setattr__ instance name new_value) args)
    as [during [e' | r]]; [| discriminate].
  injection Hcall as <- <-. split; [done |].
  simpl in Hframe. unfold __getattribute__.
  by rewrite Hframe, lookup_insert_eq.
Qed.

(** X21. An attribute the instance only inherits from its class (as
    [_importing] of a task) becomes an attribute of the instance itself:
    after a call that returns, the instance's own dict holds the value the
    class had at the time of the call under the name, whatever the wrapped
    function did. *)
Theorem change_instance_attr_own_attribute name new_value fn instance args
    (v : PyValue) instance' (r : Ret) :
  inst_dict instance !! name = None →
  class_dict instance !! name = Some v →
  change_instance_attr name new_value fn instance args = (instance', inr r) →
  inst_dict instance' !! name = Some v.
Proof.
  intros Hown Hclass Hcall.
  assert (__getattribute__ instance name = inr v) as Hold.
  { unfold __getattribute__. by rewrite Hown, Hclass. }
  rewrite (change_instance_attr_present _ _ _ _ _ _ Hold) in Hcall.
  destruct (fn (__setattr__ instance name new_value) args)
    as [during [e | r']]; [discriminate |].
  injection Hcall as <- <-. simpl. by rewrite lookup_insert_eq.
Qed.

(** X22. Two decorators for different attributes can be stacked in either
    order: the wrapped function runs on the same instance and the call ends
    the same way, with the same instance. *)
Theorem change_instance_attr_commute name1 value1 name2 value2 fn instance
    args :
  name1 ≠ name2 →
  change_instance_attr name1 value1 (change_instance_attr name2 value2 fn)
    instance args
  = change_instance_attr name2 value2 (change_instance_attr name1 value1 fn)
      instance args.
Proof.
  intros Hne.
  destruct (__getattribute__ instance name1) as [e1 | old1] eqn:H1,
           (__getattribute__ instance name2) as [e2 | old2] eqn:H2.
  - rewrite (change_instance_attr_absent _ _ _ _ _ _ H1),
            !(change_instance_attr_absent _ _ _ _ _ _ H2).
    by rewrite (change_instance_attr_absent _ _ _ _ _ _ H1).
  - rewrite (change_instance_attr_absent _ _ _ _ _ _ H1),
            !(change_instance_attr_present _ _ _ _ _ _ H2).
    rewrite (change_instance_attr_absent name1 _ _ _ _ e1); [done |].
    by rewrite getattribute_setattr_ne.
  - rewrite (change_instance_attr_absent name2 _ _ instance _ _ H2),
            !(change_instance_attr_present _ _ _ _ _ _ H1).
    rewrite (change_instance_attr_absent name2 _ _ _ _ e2); [done |].
    by rewrite getattribute_setattr_ne.
  - rewrite (change_instance_attr_present _ _ _ _ _ _ H1),
            !(change_instance_attr_present _ _ _ _ _ _ H2).
    rewrite (change_instance_attr_present name2 _ _ _ _ old2)
      by (by rewrite getattribute_setattr_ne).
    rewrite (change_instance_attr_present name1 _ _ _ _ old1)
      by (by rewrite getattribute_setattr_ne).
    rewrite (setattr_commute _ name1 name2) by done.
    destruct (fn _ args) as [during [e | r]]; [done |].
    by rewrite (setattr_commute _ name2 name1).
Qed.

(** X23. Stacked decorators for the same attribute: the inner one decides
    what the wrapped function sees. On an instance that has the attribute,
    the wrapped function runs on the instance with the attribute set to the
    inner decorator's value, and on a normal return the attribute is put
    back to its value from before the call, not to the outer decorator's
    value; on an instance without the attribute the call is the wrapped
    function's call. In both cases the call ends as if the outer decorator
    were not there. *)
Theorem change_instance_attr_nested name value1 value2 fn instance args :
  change_instance_attr name value1 (change_instance_attr name value2 fn)
    instance args
  = change_instance_attr name value2 fn instance args
  ∧ (∀ old_value,
       __getattribute__ instance name = inr old_value →
       __getattribute__ (__setattr__ instance name value2) name = inr value2
       ∧ change_instance_attr name value1
           (change_instance_attr name value2 fn) instance args
         = match fn (__setattr__ instance name value2) args with
           | (during, inr r) => (__setattr__ during name old_value, inr r)
           | (during, inl e) => (during, inl e)
           end)
  ∧ (∀ e,
       __getattribute__ instance name = inl e →
       change_instance_attr name value1
         (change_instance_attr name value2 fn) instance args
       = fn instance args).
Proof.
  assert (change_instance_attr name value1
            (change_instance_attr name value2 fn) instance args
          = change_instance_attr name value2 fn instance args) as Hnested.
  { destruct (__getattribute__ instance name) as [e | old] eqn:Hold.
    - by rewrite !(change_instance_attr_absent _ _ _ _ _ _ Hold).
    - rewrite !(change_instance_attr_present _ _ _ _ _ _ Hold).
      rewrite (change_instance_attr_present name _ _ _ _ value1)
        by apply getattribute_setattr.
      rewrite setattr_setattr.
      destruct (fn _ args) as [during [e | r]]; [done |].
      by rewrite setattr_setattr. }
  split_and!.
  - exact Hnested.
  - intros old_value Hold. split; [apply getattribute_setattr |].
    by rewrite Hnested, (change_instance_attr_present _ _ _ _ _ _ Hold).
  - intros e Hnone.
    by rewrite Hnested, (change_instance_attr_absent _ _ _ _ _ _ Hnone).
Qed.

End change_instance_attr_more.

(** ** [get_userstories_filters_data]: the keys of [querysets] *)

Section filters_data_keys.
Import services.
Context (ugettext : string → string).
Implicit Types (c : Connection) (project : Project).
Implicit Types (querysets : gmap string Queryset).

(** X24. A queryset that is missing for one of the four dimensions makes the
    call fail, whatever the other three are: no partial mapping is returned.
    When it is the one of the statuses, the first to be looked up, the call
    raises [KeyError] for it and no statement is run. *)
Theorem filters_data_missing_queryset c project querysets (key : string) :
  key ∈ ["statuses"; "assigned_to"; "owners"; "tags"] →
  querysets !! key = None →
  (∃ e, get_userstories_filters_data ugettext c project querysets = inl e)
  ∧ (key = "statuses" →
     get_userstories_filters_data ugettext c project querysets
     = inl (KeyError "statuses")).
Proof.
  intros Hkey Hnone. split.
  - destruct (get_userstories_filters_data ugettext c project querysets)
      as [e | data] eqn:Hrun; [by exists e |].
    apply get_userstories_filters_data_inr in Hrun
      as (qs1 & qs2 & qs3 & qs4 & _ & _ & _ & _ & H1 & H2 & H3 & H4 & _).
    repeat (apply elem_of_cons in Hkey as [-> | Hkey]; [congruence |]).
    by apply elem_of_nil in Hkey.
  - intros ->. unfold get_userstories_filters_data, getitem.
    by rewrite Hnone.
Qed.

(** X25. Entries of [querysets] under other keys are never looked at: with
    or without them the call ends the same way. *)
Theorem filters_data_other_keys c project querysets (key : string)
    (queryset : Queryset) :
  key ∉ ["statuses"; "assigned_to"; "owners"; "tags"] →
  get_userstories_filters_data ugettext c project (<[key := queryset]> querysets)
  = get_userstories_filters_data ugettext c project querysets.
Proof.
  intros Hkey. unfold get_userstories_filters_data, getitem.
  rewrite !lookup_insert_ne; [done | | | |];
    intros ->; apply Hkey; set_solver.
Qed.

End filters_data_keys.


(** ** The properties above on sample data *)

Section lifecycle_samples.
Import lifecycle.

Lemma open_close_userstory_round_trip_witness :
  let s' := open_userstory (sets_modified_date 1414668721)
              (close_userstory (sets_modified_date 1414668721) 1414668720
                 edited_open) in
  story_is_closed (instance s') = false
  ∧ story_finish_date (instance s') = None
  ∧ story_is_closed (row s') = false
  ∧ story_finish_date (row s') = None
  ∧ saves s' = [["is_closed"; "finish_date"]; ["is_closed"; "finish_date"]]
  ∧ story_other (instance s')
    = {["modified_date" := PyInt 1414668721; "subject" := PyStr "new"]}.
Proof.
  destruct (open_close_userstory_round_trip (sets_modified_date 1414668721)
              1414668720 edited_open)
    as (H1 & H2 & H3 & H4 & H5 & H6 & _); [done | reflexivity |].
  split_and!; [exact H1 | exact H2 | exact H3 | exact H4 | exact H5 |].
  rewrite H6. vm_compute. reflexivity.
Defined.

Lemma close_open_userstory_dated_witness :
  (dated (instance (close_userstory (sets_modified_date 1414668721)
                      1414668720 edited_open))
   ∧ dated (row (close_userstory (sets_modified_date 1414668721)
                   1414668720 edited_open)))
  ∧ (dated (instance (open_userstory (sets_modified_date 1414668721)
                        edited_open))
     ∧ dated (row (open_userstory (sets_modified_date 1414668721)
                     edited_open))).
Proof.
  apply (close_open_userstory_dated (sets_modified_date 1414668721)
           1414668720 edited_open).
  - intros f. split; reflexivity.
  - unfold dated. simpl. split; [done | by intros [? [=]]].
  - unfold dated. simpl. split; [done | by intros [? [=]]].
Defined.

Lemma close_open_userstory_other_fields_witness :
  story_other (row (close_userstory (sets_modified_date 1414668721)
                      1414668720 edited_open))
  = {["subject" := PyStr "old"]}
  ∧ story_other (row (open_userstory (sets_modified_date 1414668721)
                        edited_open))
    = {["subject" := PyStr "old"]}.
Proof.
  destruct (close_open_userstory_other_fields
              (sets_modified_date 1414668721) 1414668720 edited_open)
    as (H1 & H2 & _).
  - intros f [Hc Hd]. unfold other_fields, sets_modified_date. simpl.
    by rewrite !lookup_insert_ne.
  - vm_compute. by split.
  - vm_compute. by split.
  - split; [exact H1 | exact H2].
Defined.

End lifecycle_samples.

Section bulk_samples.
Import bulk.

Lemma update_userstories_order_in_bulk_KeyError_witness :
  ∃ key,
    update_userstories_order_in_bulk obliging
      [entry 1 10; {["us_id" := 2]}] "backlog_order" project_P
    = ([], inl (Python (KeyError key)))
    ∧ (key = "us_id" ∨ key = "order").
Proof.
  apply (update_userstories_order_in_bulk_KeyError obliging
           [entry 1 10; {["us_id" := 2]}] "backlog_order" project_P).
  apply Exists_cons_tl, Exists_cons_hd. right. vm_compute. reflexivity.
Defined.

Lemma update_userstories_order_in_bulk_calls_witness :
  update_userstories_order_in_bulk obliging [entry 3 1; entry 1 2]
    "backlog_order" project_P
  = ([emit_event_for_ids [3; 1] "userstories.userstory" 1;
      update_in_bulk_with_ids [3; 1]
        [{["backlog_order" := 1]}; {["backlog_order" := 2]}] "UserStory"],
     inr ()).
Proof.
  refine (proj2 (proj2 (update_userstories_order_in_bulk_calls obliging
                          [entry 3 1; entry 1 2] "backlog_order" project_P
                          _))).
  apply (bool_decide_unpack _). vm_compute. exact I.
Defined.

Lemma snapshot_userstories_in_bulk_existing_witness :
  snapshot_userstories_in_bulk obliging sample_db
    [entry 2 1; entry 99 2; entry 1 3] 100
  = ((λ us, take_snapshot us 100)
     <$> existing sample_db [entry 2 1; entry 99 2; entry 1 3],
     inr ()).
Proof.
  apply (snapshot_userstories_in_bulk_existing obliging sample_db
           [entry 2 1; entry 99 2; entry 1 3] 100).
  - apply (bool_decide_unpack _). vm_compute. exact I.
  - intros us. reflexivity.
  - apply (bool_decide_unpack _). vm_compute. exact I.
Defined.

Lemma snapshot_userstories_in_bulk_KeyError_witness :
  snapshot_userstories_in_bulk obliging sample_db
    ([entry 2 1] ++ {["order" := 2]} :: [entry 1 3]) 100
  = ((λ us, take_snapshot us 100) <$> existing sample_db [entry 2 1],
     inl (Python (KeyError "us_id"))).
Proof.
  apply (snapshot_userstories_in_bulk_KeyError obliging sample_db
           [entry 2 1] [entry 1 3] {["order" := 2]} 100).
  - apply (bool_decide_unpack _). vm_compute. exact I.
  - intros us. reflexivity.
  - apply (bool_decide_unpack _). vm_compute. exact I.
  - vm_compute. reflexivity.
Defined.

End bulk_samples.

Lemma tags_facet_total_witness :
  sum_list_with tag_count [mkTagFacet "bug" 2; mkTagFacet "ui" 1]
  = length (flattened_tags (filtered_collection sample_db (in_project 1))).
Proof.
  apply (tags_facet_total (healthy sample_db) (in_project 1)).
  vm_compute. reflexivity.
Defined.

Lemma assigned_to_facet_total_witness :
  let facet := [mkPersonFacet None "" 1;
                mkPersonFacet (Some 100) "Alice" 2;
                mkPersonFacet (Some 101) "Bob" 0] in
  let items := filtered_collection sample_db (in_project 1) in
  sum_list_with p_count facet
  = number_of
      (λ us, us_assigned_to_id us
             ∈ None :: (Some ∘ user_id <$> project_members sample_db project_P))
      items
  ∧ (sum_list_with p_count facet ≤ length items)%nat.
Proof.
  apply (assigned_to_facet_total (healthy sample_db) project_P
           (in_project 1)).
  - apply (bool_decide_unpack _). vm_compute. exact I.
  - vm_compute. reflexivity.
Defined.

Lemma statuses_facet_total_witness :
  let facet := [mkStatusFacet 10 "New" "#999" 1 2;
                mkStatusFacet 11 "Done" "#0f0" 2 1] in
  let items := filtered_collection sample_db (in_project 1) in
  sum_list_with st_count facet
  = number_of
      (λ us, us_status_id us
             ∈ (Some ∘ status_id <$> project_statuses sample_db project_P))
      items
  ∧ (sum_list_with st_count facet ≤ length items)%nat.
Proof.
  apply (statuses_facet_total id (healthy sample_db) project_P
           (in_project 1)).
  - apply (bool_decide_unpack _). vm_compute. exact I.
  - vm_compute. reflexivity.
Defined.

Lemma owners_facet_multiplicity_witness :
  let u := mkUser 7 "Github" true in
  let facet := [mkPersonFacet (Some 100) "Alice" 1;
                mkPersonFacet (Some 7) "Github" 1;
                mkPersonFacet (Some 7) "Github" 1] in
  number_of (λ r, p_id r = Some (user_id u)) facet
  = if decide (0 < number_of (λ us, us_owner_id us = Some (user_id u))
                     (filtered_collection samples.system_member_db
                        (in_project 1)))%nat
    then number_of
           (λ m, membership_user_id m = Some (user_id u)
                 ∧ (membership_project_id m = project_id project_P
                    ∨ user_is_system u = true))
           (projects_membership samples.system_member_db)
    else 0%nat.
Proof.
  apply (owners_facet_multiplicity (healthy samples.system_member_db)
           project_P (in_project 1)).
  - apply (bool_decide_unpack _). vm_compute. exact I.
  - left.
  - vm_compute. reflexivity.
Defined.

Lemma change_instance_attr_raise_not_restored_witness :
  let during := __setattr__ importing "_importing" (PyBool true) in
  samples.raising during () = (during, inl (KeyError "project"))
  ∧ __getattribute__ during "_importing" = inr (PyBool true).
Proof.
  apply (change_instance_attr_raise_not_restored "_importing" (PyBool true)
           samples.raising importing () (PyBool false)).
  - intros i a. reflexivity.
  - reflexivity.
  - vm_compute. reflexivity.
Defined.

Lemma change_instance_attr_own_attribute_witness :
  inst_dict
    (__setattr__ (__setattr__ samples.fresh_task "_importing" (PyBool true))
       "_importing" PyNone)
  !! "_importing" = Some PyNone.
Proof.
  apply (change_instance_attr_own_attribute "_importing" (PyBool true)
           samples.returning samples.fresh_task () PyNone _ 0).
  - reflexivity.
  - reflexivity.
  - vm_compute. reflexivity.
Defined.

Lemma change_instance_attr_commute_witness :
  change_instance_attr "_importing" (PyBool true)
    (change_instance_attr "_excluded" (PyBool true) reads_importing)
    importing ()
  = change_instance_attr "_excluded" (PyBool true)
      (change_instance_attr "_importing" (PyBool true) reads_importing)
      importing ().
Proof.
  apply (change_instance_attr_commute "_importing" (PyBool true) "_excluded"
           (PyBool true) reads_importing importing ()).
  discriminate.
Defined.

Lemma change_instance_attr_nested_witness :
  change_instance_attr "_importing" (PyInt 1)
    (change_instance_attr "_importing" (PyInt 2) reads_importing)
    importing ()
  = (importing, inr (PyInt 2)).
Proof.
  destruct (change_instance_attr_nested "_importing" (PyInt 1) (PyInt 2)
              reads_importing importing ()) as (_ & Hpresent & _).
  rewrite (proj2 (Hpresent (PyBool false) eq_refl)).
  vm_compute. reflexivity.
Defined.

Lemma filters_data_missing_queryset_witness :
  (∃ e, get_userstories_filters_data id (healthy sample_db) project_P ∅
        = inl e)
  ∧ ("statuses" = "statuses" →
     get_userstories_filters_data id (healthy sample_db) project_P ∅
     = inl (KeyError "statuses")).
Proof.
  apply (filters_data_missing_queryset id (healthy sample_db) project_P ∅
           "statuses").
  - left.
  - reflexivity.
Defined.

Lemma filters_data_other_keys_witness :
  get_userstories_filters_data id (healthy sample_db) project_P
    (<["page" := everything]> (four (in_project 1)))
  = get_userstories_filters_data id (healthy sample_db) project_P
      (four (in_project 1)).
Proof.
  apply (filters_data_other_keys id (healthy sample_db) project_P
           (four (in_project 1)) "page" everything).
  apply (bool_decide_unpack _). vm_compute. exact I.
Defined.
